(** * queens-dev-news: the ingestion, filter, dedup and rollup pipeline

    A shallow embedding of [src/utils.py], [src/scraper.py] and [run.py],
    followed by the properties of the pipeline that the specification states.

    Conventions of the embedding.
    - A Python [str] is a [string]; [str.lower] is modelled on the ASCII
      letters (bytes outside [A-Z] are left alone), and [w in t] is the
      substring test.
    - A value that may be [None] (or NaN, NaT) is an [option].
    - Instants and durations are integers counting nanoseconds.
    - What the network, the clock and the file system answer is an input of
      the run: the outcome of every fetch, the instant read from the clock,
      the file found on disk. *)

From stdpp Require Import gmap strings list sorting.
From Stdlib Require Import ZArith Ascii String.

Open Scope string_scope.
Open Scope Z_scope.

(* stdpp's set solver clears hypotheses by name and warns when one is gone. *)
Set Warnings "-clear-no-such-hyp".

(* ===================================================================== *)
(** * Shared conventions *)
(* ===================================================================== *)

(** What a call that may raise gives back to a [try] block around it. *)
Inductive outcome (A : Type) : Type :=
| Raises : outcome A
| Returns : A -> outcome A.
Arguments Raises {A}.
Arguments Returns {A} _.

(** Durations, in nanoseconds. *)
Definition hours (n : Z) : Z := n * 3600 * 1000000000.
Definition days (n : Z) : Z := hours (24 * n).

(* ===================================================================== *)
(** * src/utils.py *)
(* ===================================================================== *)

Module Utils.

(** [c.lower()] for one character. *)
Definition lower_char (c : ascii) : ascii :=
  let n := N_of_ascii c in
  if ((65 <=? n) && (n <=? 90))%N then ascii_of_N (n + 32) else c.

(** [s.lower()] *)
Fixpoint lower (s : string) : string :=
  match s with
  | EmptyString => EmptyString
  | String c t => String (lower_char c) (lower t)
  end.

(** [w in t] on strings: [w] occurs in [t] as a contiguous substring. *)
Fixpoint str_in (w t : string) : bool :=
  String.prefix w t ||
  match t with
  | EmptyString => false
  | String _ t' => str_in w t'
  end.

(** [text or ""] *)
Definition or_empty (text : option string) : string := default "" text.

(** [any(w.lower() in t for w in any_words)] with [t = (text or "").lower()] *)
Definition contains_keywords (text : option string) (any_words : list string) : bool :=
  let t := lower (or_empty text) in
  existsb (fun w => str_in (lower w) t) any_words.

Definition contains_borough (text : option string) (boroughs : list string) : bool :=
  let t := lower (or_empty text) in
  existsb (fun b => str_in (lower b) t) boroughs.

(** ** The other helpers of the file *)

(** A character that [str.strip] strips and that [\s] matches, among the
    ASCII characters: tab, line feed, vertical tab, form feed, carriage
    return, the four separators 28 to 31, and the space. *)
Definition is_space (c : ascii) : bool :=
  let n := N_of_ascii c in
  (((9 <=? n) && (n <=? 13)) || ((28 <=? n) && (n <=? 32)))%N.

(** [s.lstrip()] and [s.rstrip()] *)
Fixpoint lstrip (s : string) : string :=
  match s with
  | EmptyString => EmptyString
  | String c t => if is_space c then lstrip t else s
  end.

Fixpoint rstrip (s : string) : string :=
  match s with
  | EmptyString => EmptyString
  | String c t =>
      match rstrip t with
      | EmptyString => if is_space c then EmptyString else String c EmptyString
      | t' => String c t'
      end
  end.

(** [s.strip()] *)
Definition strip (s : string) : string := rstrip (lstrip s).

(** [re.sub(r"\s+", " ", s)]: every maximal run of whitespace becomes one
    space; [in_run] tells that the character before was whitespace. *)
Fixpoint collapse (in_run : bool) (s : string) : string :=
  match s with
  | EmptyString => EmptyString
  | String c t =>
      if is_space c then
        if in_run then collapse true t else String " " (collapse true t)
      else String c (collapse false t)
  end.

Definition norm_text (s : option string) : string :=
  collapse false (strip (or_empty s)).

(** [parse_date]: [parser] is [dateutil.parser.parse], which returns a
    date or raises. *)
Definition parse_date {D : Type} (parser : string -> outcome D)
    (dt_str : option string) : option D :=
  match dt_str with
  | None => None
  | Some EmptyString => None
  | Some s =>
      match parser s with
      | Returns d => Some d
      | Raises => None
      end
  end.

Definition looks_like_article_link (href : option string) : bool :=
  match href with
  | None => false
  | Some EmptyString => false
  | Some href =>
      let bad := ["#"; "javascript:"; "mailto:"] in
      negb (existsb (fun b => String.prefix b (lower href)) bad)
  end.

(** ** Notions the statements about the helpers use *)

(** The whitespace of [s] is single spaces between other characters:
    [after_space] tells that the character before was a space (or that
    [s] is read from its start). *)
Fixpoint tidy_from (after_space : bool) (s : string) : bool :=
  match s with
  | EmptyString => negb after_space
  | String c t =>
      if is_space c then
        bool_decide (c = " "%char) && negb after_space && tidy_from true t
      else tidy_from false t
  end.

Definition tidy (s : string) : bool :=
  match s with
  | EmptyString => true
  | _ => tidy_from true s
  end.

(** The characters of [s] that are not whitespace, in order. *)
Fixpoint visible (s : string) : string :=
  match s with
  | EmptyString => EmptyString
  | String c t => if is_space c then visible t else String c (visible t)
  end.

(** Every whitespace character of [s] is a space. *)
Fixpoint only_spaces (s : string) : bool :=
  match s with
  | EmptyString => true
  | String c t => (negb (is_space c) || bool_decide (c = " "%char)) && only_spaces t
  end.

End Utils.

(* ===================================================================== *)
(** * src/scraper.py *)
(* ===================================================================== *)

Module Scraper.
Import Utils.

(** A Python [datetime]: its wall-clock reading, and whether it carries a
    time zone.  Ordering a zone-aware value against the naive
    [datetime.now()] raises [TypeError]. *)
Record datetime := mkDatetime { wall : Z; aware : bool }.

(** The dict built by [parse_rss] and [parse_html_list], with the keys that
    [main] and [enrich_article] add later.  An item is identified by its
    link, a string: a feed entry without a link is outside this model. *)
Record Item := mkItem {
  title : option string;
  url : string;
  summary : option string;
  published : option datetime;
  raw_date : option string;
  source : option string;
  feed_name : option string;
  content_preview : option string
}.

#[export] Instance datetime_eq_dec : EqDecision datetime.
Proof. solve_decision. Defined.

#[export] Instance Item_eq_dec : EqDecision Item.
Proof. solve_decision. Defined.

Definition set_source (s : string) (it : Item) : Item :=
  mkItem (title it) (url it) (summary it) (published it) (raw_date it)
         (Some s) (feed_name it) (content_preview it).

Definition set_feed_name (s : string) (it : Item) : Item :=
  mkItem (title it) (url it) (summary it) (published it) (raw_date it)
         (source it) (Some s) (content_preview it).

Definition set_content_preview (p : option string) (it : Item) : Item :=
  mkItem (title it) (url it) (summary it) (published it) (raw_date it)
         (source it) (feed_name it) p.

(** One entry of [sources.yaml]; the selectors are only read for HTML
    sources. *)
Record Src := mkSrc {
  src_name : string;
  src_source : string;
  src_url : string;
  list_selector : option string;
  title_selector : option string;
  link_selector : option string;
  date_selector : option string;
  summary_selector : option string
}.

Record Sources := mkSources {
  rss_sources : list Src;
  html_sources : list Src
}.

(** ** The seen-set file *)

(** [seen_urls.csv]: absent, or its rows. *)
Definition SeenFile := option (list (list string)).

Definition load_seen (f : SeenFile) : gset string :=
  match f with
  | None => ∅
  | Some lines =>
      foldl (fun seen row =>
               match row with
               | [] => seen
               | u :: _ => {[ u ]} ∪ seen
               end) ∅ lines
  end.

Definition str_le (a b : string) : Prop := String.leb a b = true.

#[export] Instance str_le_dec a b : Decision (str_le a b).
Proof. unfold str_le. apply _. Defined.

(** [sorted(seen)] *)
Definition sorted (seen : gset string) : list string :=
  merge_sort str_le (elements seen).

Definition save_seen (seen : gset string) : SeenFile :=
  Some (map (fun u => [u]) (sorted seen)).

(** ** The relevance filter *)

Definition QUEENS_FEED_HINTS : list string :=
  [ "long island city"; "lic"; "astoria"; "flushing"; "jamaica";
    "ridgewood"; "sunnyside"; "woodside"; "rego park"; "forest hills";
    "kew gardens"; "bayside"; "whitestone"; "college point";
    "maspeth"; "elmhurst"; "jackson heights"; "corona";
    "rockaway"; "far rockaway"; "howard beach"; "middle village"; "ozone park" ].

(** [" ".join([a, b, c])] *)
Definition join3 (a b c : string) : string := a ++ " " ++ b ++ " " ++ c.

(** ** The seven-day window of [main] *)

(** [fresh(d)], with [now = datetime.now()]. *)
Definition fresh (now : Z) (d : option datetime) : bool :=
  match d with
  | None => true
  | Some d =>
      if aware d then true           (* the comparison raises: [except] *)
      else bool_decide (now - days 7 <= wall d)
  end.

(** [df[df["published"].apply(fresh)]], skipped on an empty frame. *)
Definition fresh_rows (now : Z) (rows : list Item) : list Item :=
  match rows with
  | [] => rows
  | _ => List.filter (fun it => fresh now (published it)) rows
  end.

Section Filter.
(** [keywords.yaml] is not part of the sources: its two lists are taken
    as given. *)
Variable BOROUGHS : list string.
Variable MUST_ANY : list string.

Definition text_blob (it : Item) : string :=
  lower (join3 (or_empty (title it)) (or_empty (summary it))
               (or_empty (content_preview it))).

Definition is_yimby_queens_feed (it : Item) : bool :=
  let source := lower (or_empty (source it)) in
  let feed_name := lower (or_empty (feed_name it)) in
  bool_decide (source = "yimby") &&
  existsb (fun h => str_in h feed_name) QUEENS_FEED_HINTS.

(** The body of the loop of [filter_items]: is [it] appended? *)
Definition keeps (it : Item) : bool :=
  let has_borough := contains_borough (Some (text_blob it)) BOROUGHS in
  let has_keyword := contains_keywords (Some (text_blob it)) MUST_ANY in
  if is_yimby_queens_feed it then has_keyword
  else has_borough && has_keyword.

Fixpoint filter_items (items : list Item) : list Item :=
  match items with
  | [] => []
  | it :: rest => if keeps it then it :: filter_items rest else filter_items rest
  end.

(** Truth value of a list, as in [if filter_items([it]):]. *)
Definition truthy {A} (l : list A) : bool :=
  match l with [] => false | _ => true end.

(** ** The ingestion loops of [main] *)

(** [fetch_page url] is what [enrich_article] extracts from the page of
    [url]: the preview text, or [None] when the request or the parse
    raised. *)
Variable fetch_page : string -> option string.

Definition enrich_article (article : Item) : Item :=
  set_content_preview (fetch_page (url article)) article.

(** The state the two loops share: [seen] and [rows], and a ghost trace
    [processed] of the items that were enriched and handed to
    [filter_items], in call order. *)
Record State := mkState {
  seen : gset string;
  rows : list Item;
  processed : list Item
}.

(** One turn of [for it in items[:80]]. *)
Definition process_item (src : Src) (st : State) (it : Item) : State :=
  let it := set_feed_name (src_name src) (set_source (src_source src) it) in
  if bool_decide (url it ∈ seen st) then st
  else
    let it := enrich_article it in
    let log := (processed st ++ [it])%list in
    if truthy (filter_items [it])
    then mkState ({[ url it ]} ∪ seen st) (rows st ++ [it])%list log
    else mkState (seen st) (rows st) log.

(** One turn of [for src in ...]: the [try] block around a source. *)
Definition process_source (parse : Src -> outcome (list Item))
    (st : State) (src : Src) : State :=
  match parse src with
  | Raises => st
  | Returns items => foldl (process_item src) st (take 80 items)
  end.

(** [parse_rss] and [parse_html_list] read the network: their outcome for
    each source is given. *)
Variable parse_rss : Src -> outcome (list Item).
Variable parse_html_list : Src -> outcome (list Item).

Definition ingest (SOURCES : Sources) (seen0 : gset string) : State :=
  let st := mkState seen0 [] [] in
  let st := foldl (process_source parse_rss) st (rss_sources SOURCES) in
  foldl (process_source parse_html_list) st (html_sources SOURCES).

(** [main()], for a run that reaches [save_seen]: the rows that go to the
    workbook, before they are sorted and their columns renamed, and the
    seen-set file. *)
Definition main (SOURCES : Sources) (now : Z) (seen_file : SeenFile)
    : list Item * SeenFile :=
  let st := ingest SOURCES (load_seen seen_file) in
  (fresh_rows now (rows st), save_seen (seen st)).

(** ** Notions the statements about the loops use *)

(** The item as the loop body holds it once the gate is passed. *)
Definition prepared (src : Src) (it : Item) : Item :=
  enrich_article
    (set_feed_name (src_name src) (set_source (src_source src) it)).

(** What holds of the state all along the loops, for a run that loaded
    [seen0]. *)
Record inv (seen0 : gset string) (st : State) : Prop := mkInv {
  inv_seen : seen st = seen0 ∪ list_to_set (url <$> rows st);
  inv_kept : forall r, r ∈ rows st -> keeps r = true;
  inv_rows : forall r, r ∈ rows st -> r ∈ processed st
}.

(** What has been kept and what has been processed stays so. *)
Definition extends (st st' : State) : Prop :=
  rows st ⊆ rows st' /\ processed st ⊆ processed st'.

End Filter.

(** A parser whose exceptions are replaced by an empty batch. *)
Definition quiet (parse : Src -> outcome (list Item)) (src : Src) : outcome (list Item) :=
  match parse src with
  | Raises => Returns []
  | Returns items => Returns items
  end.

End Scraper.

(* ===================================================================== *)
(** * src/scraper.py: what is made of a fetched feed and of a fetched page *)
(* ===================================================================== *)

Module Feeds.
Import Utils.

(** An entry of [feedparser.parse(feed_url).entries], read through
    [e.get]; its link is a string, as the link of an item is. *)
Record Entry := mkEntry {
  e_title : option string;
  e_link : string;
  e_summary : option string;
  e_description : option string;
  e_published : option string;
  e_updated : option string
}.

(** Truth value of [e.get(k)]. *)
Definition given (o : option string) : bool :=
  match o with
  | None => false
  | Some EmptyString => false
  | Some _ => true
  end.

(** [a or b] *)
Definition py_or (a b : option string) : option string :=
  if given a then a else b.

Section ParseRss.
(** [dateutil.parser.parse] *)
Variable parser : string -> outcome Scraper.datetime.

(** The loop [for k in ("published", "updated")] of [parse_rss]. *)
Definition entry_date (e : Entry) : option Scraper.datetime :=
  let dt := None in
  let dt := if given (e_published e) then parse_date parser (e_published e) else dt in
  match dt with
  | Some _ => dt
  | None => if given (e_updated e) then parse_date parser (e_updated e) else dt
  end.

(** The dict that [parse_rss] appends for one entry. *)
Definition rss_item (e : Entry) : Scraper.Item :=
  let title := norm_text (e_title e) in
  let link := e_link e in
  let summary := norm_text (py_or (e_summary e) (e_description e)) in
  let dt := entry_date e in
  Scraper.mkItem (Some title) link (Some summary) dt
                 (py_or (e_published e) (e_updated e)) None None None.

(** [parse_rss], from the entries that [feedparser] read. *)
Definition parse_rss (entries : list Entry) : list Scraper.Item :=
  rss_item <$> entries.
End ParseRss.

(** The preview that [enrich_article] keeps, from the texts of the tags
    that [find_all] returned: [" ".join(norm_text(...))[:1200]]. *)
Definition content_preview_of (texts : list string) : string :=
  let extra := String.concat " " ((fun t => norm_text (Some t)) <$> texts) in
  String.substring 0 1200 extra.

End Feeds.

(* ===================================================================== *)
(** * run.py *)
(* ===================================================================== *)

Module Run.

(** ** Data frames *)

(** A cell that is not null: a text, or an instant. *)
Inductive value :=
| Str (s : string)
| Stamp (t : Z).

#[export] Instance value_eq_dec : EqDecision value.
Proof. solve_decision. Defined.

(** A row maps a column name to its cell; a null cell ([None], NaN, NaT)
    is a column without a binding. *)
Abbreviation Row := (gmap string value).

Record DataFrame := mkDataFrame {
  columns : list string;
  rows : list Row
}.

#[export] Instance DataFrame_eq_dec : EqDecision DataFrame.
Proof. solve_decision. Defined.

Definition COLS : list string :=
  ["date"; "title"; "neighborhood"; "action"; "source"; "link"].

(** [pd.DataFrame(columns=[...])] *)
Definition empty_frame : DataFrame := mkDataFrame COLS [].

(** [df.empty]: one of the two axes has length zero. *)
Definition empty (df : DataFrame) : bool :=
  bool_decide (rows df = []) || bool_decide (columns df = []).

(** The cells of [r] in the columns [cols]. *)
Definition project (cols : list string) (r : Row) : Row :=
  filter (fun kv => kv.1 ∈ cols) r.

(** [pd.DataFrame(rows, columns=cols)] on a list of records. *)
Definition from_records (rs : list Row) (cols : list string) : DataFrame :=
  mkDataFrame cols (project cols <$> rs).

(** [df[cols]] once every column of [cols] is known to be there. *)
Definition select (cols : list string) (df : DataFrame) : DataFrame :=
  mkDataFrame cols (project cols <$> rows df).

(** [df[c] = ...]: the column is replaced, or added last. *)
Definition assign (c : string) (f : Row -> option value) (df : DataFrame) : DataFrame :=
  mkDataFrame
    (if bool_decide (c ∈ columns df) then columns df else (columns df ++ [c])%list)
    ((fun r => match f r with
               | Some v => <[c := v]> r
               | None => delete c r
               end) <$> rows df).

(** [df.drop(columns=[c])] for a column that is there. *)
Definition drop (c : string) (df : DataFrame) : DataFrame :=
  mkDataFrame (List.filter (fun c' => negb (bool_decide (c' = c))) (columns df))
              (delete c <$> rows df).

(** [pd.concat([a, b], ignore_index=True)]: the rows of [a], then those of
    [b]; the columns of [a], then those only [b] has. *)
Definition concat (a b : DataFrame) : DataFrame :=
  mkDataFrame
    (columns a ++ List.filter (fun c => negb (bool_decide (c ∈ columns a))) (columns b))%list
    (rows a ++ rows b)%list.

(** ** Exceptions *)

(** The states of a run in which an exception can escape [main]. *)
Inductive stage := FETCH | WINDOW_SPLIT | MERGE | PERSIST.

Inductive exn :=
| KeyError (column : string)
| Fault (at_stage : stage).

Inductive result (A : Type) : Type :=
| Ok : A -> result A
| Raise : exn -> result A.
Arguments Ok {A} _.
Arguments Raise {A} _.

#[export] Instance result_ret : MRet result := fun A a => Ok a.
#[export] Instance result_bind : MBind result :=
  fun A B f m => match m with Ok a => f a | Raise e => Raise e end.

(** ** Deduplication *)

(** The cells of a row that [drop_duplicates] compares; two null cells
    compare equal. *)
Definition row_key (subset : list string) (r : Row) : list (option value) :=
  (fun c => r !! c) <$> subset.

(** [keep="first"]: a row goes when an earlier row has its key. *)
Fixpoint keep_first (subset : list string) (seen : list (list (option value)))
    (rs : list Row) : list Row :=
  match rs with
  | [] => []
  | r :: rs =>
      let k := row_key subset r in
      if bool_decide (k ∈ seen) then keep_first subset seen rs
      else r :: keep_first subset (k :: seen) rs
  end.

(** [df.drop_duplicates(subset=subset, keep="first")]: an empty frame is
    returned as it is, before the columns of [subset] are looked up. *)
Definition drop_duplicates (subset : list string) (df : DataFrame) : result DataFrame :=
  if empty df then Ok df
  else
    match List.filter (fun c => negb (bool_decide (c ∈ columns df))) subset with
    | [] => Ok (mkDataFrame (columns df) (keep_first subset [] (rows df)))
    | c :: _ => Raise (KeyError c)
    end.

Definition _dedupe (df_new : DataFrame) (df_old : option DataFrame) : result DataFrame :=
  match df_old with
  | None => Ok df_new
  | Some df_old =>
      if empty df_old then Ok df_new
      else
        let cat := concat df_old df_new in
        drop_duplicates ["title"; "link"] cat
  end.

(** ** Windows *)

Definition DAILY_WINDOW : Z := days 2.
Definition WEEKLY_WINDOW : Z := days 7.

Section Window.
(** [pd.to_datetime(..., errors="coerce", utc=True)] on one text cell:
    the instant it reads, or [None] (NaT) when it reads none. *)
Variable parse_utc : string -> option Z.

Definition to_datetime (cell : option value) : option Z :=
  match cell with
  | None => None
  | Some (Stamp t) => Some t
  | Some (Str s) => parse_utc s
  end.

(** [df["date_parsed"] >= cutoff] on one row; NaT compares false. *)
Definition not_before (cutoff : Z) (r : Row) : bool :=
  match r !! "date_parsed" with
  | Some (Stamp t) => bool_decide (cutoff <= t)
  | _ => false
  end.

(** [utcnow] is what [pd.Timestamp.utcnow()] answers during the call. *)
Definition _fresh_filter (df : option DataFrame) (window_td : Z) (utcnow : Z)
    : result DataFrame :=
  match df with
  | None => Ok empty_frame
  | Some df =>
      if empty df then Ok empty_frame
      else if bool_decide ("date" ∈ columns df) then
        let df := assign "date_parsed"
                         (fun r => Stamp <$> to_datetime (r !! "date")) df in
        let cutoff := utcnow - window_td in
        Ok (drop "date_parsed"
              (mkDataFrame (columns df) (List.filter (not_before cutoff) (rows df))))
      else Raise (KeyError "date")
  end.
End Window.

(** ** Columns *)

Definition _ensure_cols (df : option DataFrame) : DataFrame :=
  match df with
  | None => empty_frame
  | Some df =>
      let df := foldl (fun df c =>
                         if bool_decide (c ∈ columns df) then df
                         else assign c (fun _ => None) df) df COLS in
      select COLS df
  end.

(** ** The workbook *)

Definition DAILY_SHEET : string := "daily_log".
Definition WEEKLY_SHEET : string := "weekly_rollup".

(** What is found at [OUTPUT_XLSX]: no file, a file that [read_excel]
    cannot open, or a workbook and its sheets. *)
Inductive File :=
| Missing
| Unreadable
| Workbook (sheets : gmap string DataFrame).

Definition _load_sheet (path : File) (sheet : string) : option DataFrame :=
  match path with
  | Missing => None
  | Unreadable => None
  | Workbook sheets => sheets !! sheet
  end.

(** The file that [_save_excel] leaves at the path. *)
Definition _save_excel (daily_df weekly_df : option DataFrame) : File :=
  Workbook (<[WEEKLY_SHEET := default empty_frame weekly_df]>
            (<[DAILY_SHEET := default empty_frame daily_df]> ∅)).

(** ** Crawling *)

(** Modelled from the spec: the modules [pincusco], [yimby] and
    [cityrealty] that [run.py] imports are not in the repository.  Each is
    absent ([None], as after a failed import) or present, and a present one
    answers [fetch_recent()] by raising or by a list of records with the
    fields of the canonical record. *)
Definition Module_ := option (outcome (list Row)).

(** [if m: try: rows.extend(m.fetch_recent()) except Exception: ...] *)
Definition extend_safe (rows : list Row) (m : Module_) : list Row :=
  match m with
  | None => rows
  | Some Raises => rows
  | Some (Returns items) => (rows ++ items)%list
  end.

Definition crawl_all_safe (pincusco yimby cityrealty : Module_) : DataFrame :=
  let rows := [] in
  let rows := extend_safe rows pincusco in
  let rows := extend_safe rows yimby in
  let rows := extend_safe rows cityrealty in
  let df := from_records rows COLS in
  _ensure_cols (Some df).

(** ** One run *)

(** What one run meets: the three modules, the two readings of the clock,
    and the stage, if any, at which a collaborator (pandas, openpyxl, the
    file system) raises an exception that [main] does not catch. *)
Record Env := mkEnv {
  pincusco : Module_;
  yimby : Module_;
  cityrealty : Module_;
  utcnow_daily : Z;
  utcnow_weekly : Z;
  fault : option stage
}.

#[export] Instance stage_eq_dec : EqDecision stage.
Proof. solve_decision. Defined.

Definition reach (env : Env) (s : stage) : result unit :=
  if bool_decide (fault env = Some s) then Raise (Fault s) else Ok tt.

Section Main.
Variable parse_utc : string -> option Z.

(** [main(mode)]: the file it leaves at [OUTPUT_XLSX], or the exception
    that escapes it. *)
Definition main (env : Env) (path : File) : result File :=
  _ ← reach env FETCH;
  let new_df := crawl_all_safe (pincusco env) (yimby env) (cityrealty env) in
  let daily_old := _load_sheet path DAILY_SHEET in
  let weekly_old := _load_sheet path WEEKLY_SHEET in
  _ ← reach env WINDOW_SPLIT;
  daily_df ← _fresh_filter parse_utc (Some new_df) DAILY_WINDOW (utcnow_daily env);
  weekly_df ← _fresh_filter parse_utc (Some new_df) WEEKLY_WINDOW (utcnow_weekly env);
  _ ← reach env MERGE;
  daily_all ← _dedupe daily_df daily_old;
  weekly_all ← _dedupe weekly_df weekly_old;
  _ ← reach env PERSIST;
  Ok (_save_excel (Some daily_all) (Some weekly_all)).

(** The [__main__] block: the file at [OUTPUT_XLSX] when the process
    ends. *)
Definition __main__ (env : Env) (path : File) : File :=
  match main env path with
  | Ok written => written
  | Raise _ => _save_excel (Some empty_frame) (Some empty_frame)
  end.

(** Successive runs, oldest first. *)
Definition runs (envs : list Env) (path : File) : File :=
  foldl (fun path env => __main__ env path) path envs.
End Main.

(** ** Notions the statements about run.py use *)

(** The identity of a record: its title and its link. *)
Definition title_link (r : Row) : list (option value) :=
  row_key ["title"; "link"] r.

(** The frame has the two columns a record is identified by. *)
Definition keyed (df : DataFrame) : Prop :=
  "title" ∈ columns df /\ "link" ∈ columns df.

(** The number of distinct (title, link) pairs of a collection. *)
Definition distinct_pairs (df : DataFrame) : nat :=
  List.length (remove_dups (title_link <$> rows df)).

(** The instant [_fresh_filter] reads in the date of a record. *)
Definition parsed_date (parse_utc : string -> option Z) (r : Row) : option Z :=
  to_datetime parse_utc (r !! "date").

(** The row once [df["date_parsed"] = ...] is assigned. *)
Definition with_parsed (parse_utc : string -> option Z) (r : Row) : Row :=
  match Stamp <$> to_datetime parse_utc (r !! "date") with
  | Some v => <["date_parsed" := v]> r
  | None => delete "date_parsed" r
  end.

(** The date of the record reads as an instant that is not before
    [cutoff]. *)
Definition in_window (parse_utc : string -> option Z) (cutoff : Z) (r : Row) : bool :=
  match parsed_date parse_utc r with
  | Some t => bool_decide (cutoff <= t)
  | None => false
  end.

(** The records a module hands to [crawl_all_safe]. *)
Definition fetched (m : Module_) : list Row :=
  match m with
  | Some (Returns items) => items
  | _ => []
  end.

(** The module with its exception replaced by an empty answer. *)
Definition contained (m : Module_) : Module_ :=
  match m with
  | Some Raises => Some (Returns [])
  | _ => m
  end.

(** The run in which every module that raises answers with no record
    instead. *)
Definition contained_env (env : Env) : Env :=
  mkEnv (contained (pincusco env)) (contained (yimby env))
        (contained (cityrealty env))
        (utcnow_daily env) (utcnow_weekly env) (fault env).

(** The artifact has both partitions, each with the six columns in order. *)
Definition well_formed (path : File) : Prop :=
  exists sheets, path = Workbook sheets /\
    columns <$> sheets !! DAILY_SHEET = Some COLS /\
    columns <$> sheets !! WEEKLY_SHEET = Some COLS.

(** What a run may find at the path: nothing, a file that does not open,
    or a workbook in which a partition that loads with rows has the six
    columns (as in every workbook that a run has written). *)
Definition compatible (path : File) : Prop :=
  forall sheet df, sheet ∈ [DAILY_SHEET; WEEKLY_SHEET] ->
    _load_sheet path sheet = Some df ->
    empty df = true \/ columns df = COLS.

End Run.

(* ===================================================================== *)
(** * Sample data, on which the statements below are run *)
(* ===================================================================== *)

Module Sample.

Definition astoria_item : Scraper.Item :=
  Scraper.mkItem (Some "Permits filed for a new tower") "https://example.org/a"
         None None None (Some "yimby") (Some "YIMBY Astoria") None.

(** A record of [run.py] with a date, a title and a link. *)
Definition record (date : Z) (title link : string) : gmap string Run.value :=
  <["date" := Run.Stamp date]>
    (<["title" := Run.Str title]> (<["link" := Run.Str link]> ∅)).

(** A record without a date. *)
Definition undated (title link : string) : gmap string Run.value :=
  <["title" := Run.Str title]> (<["link" := Run.Str link]> ∅).

(** An instant [T], and three sightings of one article: [T1] before [T2]
    before [T3]. *)
Definition T : Z := days 20000.
Definition T1 : Z := T - hours 30.
Definition T2 : Z := T - hours 20.
Definition T3 : Z := T - hours 10.

Definition H0 := record T1 "A" "L".
Definition H := record T2 "A" "L".
Definition N := record T3 "A" "L".
Definition other := record T3 "B" "M".

Definition frame (rs : list (gmap string Run.value)) : Run.DataFrame :=
  Run.mkDataFrame Run.COLS rs.

(** Two records, dated 47 and 49 hours before [T]. *)
Definition at_47h := record (T - hours 47) "A" "L".
Definition at_49h := record (T - hours 49) "B" "M".

(** No text cell reads as a date. *)
Definition no_text_dates : string -> option Z := fun _ => None.

(** A run of [run.py] in which one module answers, one raises and one is
    absent. *)
Definition env_partial : Run.Env :=
  Run.mkEnv (Some (Returns [H; other])) (Some Raises) None T T None.

(** A run that raises while it saves. *)
Definition env_fault : Run.Env :=
  Run.mkEnv (Some (Returns [H])) None None T T (Some Run.PERSIST).

(** Two feeds of [scraper.py]: the first cannot be fetched, the second
    yields one item. *)
Definition feed (name : string) : Scraper.Src :=
  Scraper.mkSrc name "yimby" ("https://example.org/feed/" ++ name)
                None None None None None.

Definition feeds : Scraper.Sources :=
  Scraper.mkSources [feed "down"; feed "YIMBY Astoria"] [].

Definition parse_feed (src : Scraper.Src) : outcome (list Scraper.Item) :=
  if bool_decide (Scraper.src_name src = "down") then Raises
  else Returns [astoria_item].

Definition no_page : string -> option string := fun _ => None.

(** A record dated a week after [T]. *)
Definition next_week := record (T + days 7) "C" "N".

(** An item of a feed that the relaxation does not name, without any
    keyword in its text. *)
Definition plain_item : Scraper.Item :=
  Scraper.mkItem (Some "Weekend events") "https://example.org/b"
         (Some "Things to do") None None (Some "cityrealty") (Some "News") None.

(** A workbook in which both partitions hold the one record [H]. *)
Definition history : Run.File :=
  Run._save_excel (Some (frame [H])) (Some (frame [H])).

(** An item dated at [T], without a time zone. *)
Definition dated_item : Scraper.Item :=
  Scraper.mkItem (Some "Rezoning approved") "https://example.org/c"
         None (Some (Scraper.mkDatetime T false)) None
         (Some "yimby") (Some "YIMBY Astoria") None.

End Sample.

(* ===================================================================== *)
(** * Properties of the relevance filter *)
(* ===================================================================== *)

Module FilterSpec.
Import Utils Scraper.

Lemma lower_char_idem c : lower_char (lower_char c) = lower_char c.
Proof. destruct c as [[] [] [] [] [] [] [] []]; reflexivity. Qed.

Lemma lower_idem s : lower (lower s) = lower s.
Proof. induction s as [|c s IH]; simpl; [done|]. by rewrite lower_char_idem, IH. Qed.

(** The string operations on two feed names: the hint is searched in the
    lower-cased name, and matches anywhere in it. *)
Example lower_feed_name : lower "YIMBY Astoria" = "yimby astoria".
Proof. reflexivity. Qed.

Example str_in_feed_name :
  str_in "astoria" "yimby astoria" = true /\
  str_in "lic" "public notices" = true /\
  str_in "astoria" "yimby brooklyn" = false.
Proof. repeat split; reflexivity. Qed.

Lemma text_blob_lower it : lower (text_blob it) = text_blob it.
Proof. unfold text_blob. apply lower_idem. Qed.

(** The two match conditions, read on the blob of an item. *)
Lemma contains_keywords_blob it words :
  contains_keywords (Some (text_blob it)) words = true <->
  exists w, w ∈ words /\ str_in (lower w) (text_blob it) = true.
Proof.
  unfold contains_keywords, or_empty. simpl. rewrite text_blob_lower.
  rewrite existsb_exists. setoid_rewrite <- list_elem_of_In. done.
Qed.

Lemma contains_borough_blob it boroughs :
  contains_borough (Some (text_blob it)) boroughs = true <->
  exists b, b ∈ boroughs /\ str_in (lower b) (text_blob it) = true.
Proof.
  unfold contains_borough, or_empty. simpl. rewrite text_blob_lower.
  rewrite existsb_exists. setoid_rewrite <- list_elem_of_In. done.
Qed.

Lemma filter_items_single BOROUGHS MUST_ANY it :
  filter_items BOROUGHS MUST_ANY [it] =
  if keeps BOROUGHS MUST_ANY it then [it] else [].
Proof. reflexivity. Qed.

Lemma filter_items_elem BOROUGHS MUST_ANY items it :
  it ∈ filter_items BOROUGHS MUST_ANY items <->
  it ∈ items /\ keeps BOROUGHS MUST_ANY it = true.
Proof.
  induction items as [|x items IH]; simpl.
  - split; [intros H; inversion H | intros [H _]; inversion H].
  - destruct (keeps BOROUGHS MUST_ANY x) eqn:Hx; rewrite ?elem_of_cons, IH.
    + intuition (subst; auto).
    + intuition (subst; auto; congruence).
Qed.

(** C5. An item of a "yimby" feed whose name contains "astoria", with a
    topic keyword and no borough keyword in its text, is kept by the
    relevance filter; an item with such a text whose source is not "yimby",
    or whose feed name contains no hint, is dropped.  Source and feed name
    are compared in lower case, as the code does. *)
Theorem relaxation_rule BOROUGHS MUST_ANY (it : Item) :
  (exists w, w ∈ MUST_ANY /\ str_in (lower w) (text_blob it) = true) ->
  (forall b, b ∈ BOROUGHS -> str_in (lower b) (text_blob it) = false) ->
  (lower (or_empty (source it)) = "yimby" ->
   str_in "astoria" (lower (or_empty (feed_name it))) = true ->
   filter_items BOROUGHS MUST_ANY [it] = [it])
  /\
  (lower (or_empty (source it)) <> "yimby" \/
   (forall h, h ∈ QUEENS_FEED_HINTS ->
              str_in h (lower (or_empty (feed_name it))) = false) ->
   filter_items BOROUGHS MUST_ANY [it] = []).
Proof.
  intros Htopic Hnob.
  assert (Hk : contains_keywords (Some (text_blob it)) MUST_ANY = true)
    by (by apply contains_keywords_blob).
  assert (Hb : contains_borough (Some (text_blob it)) BOROUGHS = false).
  { apply not_true_is_false. intros [b [Hin Hs]]%contains_borough_blob.
    rewrite (Hnob b Hin) in Hs. discriminate. }
  split.
  - intros Hsrc Hfeed. rewrite filter_items_single. unfold keeps.
    assert (Hy : is_yimby_queens_feed it = true).
    { unfold is_yimby_queens_feed. rewrite Hsrc.
      apply andb_true_intro. split; [by apply bool_decide_eq_true_2|].
      apply existsb_exists. exists "astoria". split; [|exact Hfeed].
      unfold QUEENS_FEED_HINTS. simpl. tauto. }
    by rewrite Hy, Hk.
  - intros Hnot. rewrite filter_items_single. unfold keeps.
    assert (Hy : is_yimby_queens_feed it = false).
    { unfold is_yimby_queens_feed. destruct Hnot as [Hsrc | Hfeed].
      - rewrite bool_decide_eq_false_2 by exact Hsrc. reflexivity.
      - apply andb_false_intro2. apply not_true_is_false.
        intros [h [Hin Hs]]%existsb_exists.
        apply list_elem_of_In in Hin. rewrite (Hfeed h Hin) in Hs. discriminate. }
    by rewrite Hy, Hb.
Qed.

Lemma relaxation_rule_witness :
  filter_items ["queens"] ["permits"] [Sample.astoria_item] = [Sample.astoria_item] /\
  filter_items ["queens"] ["permits"] [set_source "pincusco" Sample.astoria_item] = [].
Proof.
  split.
  - apply (relaxation_rule ["queens"] ["permits"] Sample.astoria_item).
    + exists "permits". split; [constructor | reflexivity].
    + intros b Hb. apply list_elem_of_singleton in Hb. subst b. reflexivity.
    + reflexivity.
    + reflexivity.
  - apply (relaxation_rule ["queens"] ["permits"]
             (set_source "pincusco" Sample.astoria_item)).
    + exists "permits". split; [constructor | reflexivity].
    + intros b Hb. apply list_elem_of_singleton in Hb. subst b. reflexivity.
    + left. vm_compute. discriminate.
Defined.

(** C6. With an empty keyword list the match condition is false on every
    text, and with an empty must-have list the filter keeps nothing of any
    batch, whatever the borough list. *)
Theorem empty_keyword_lists_match_nothing :
  (forall text, contains_keywords text [] = false) /\
  (forall text, contains_borough text [] = false) /\
  (forall BOROUGHS items, filter_items BOROUGHS [] items = []).
Proof.
  split; [done|]. split; [done|].
  intros BOROUGHS items. induction items as [|it items IH]; simpl; [done|].
  unfold keeps. simpl. rewrite andb_false_r.
  by destruct (is_yimby_queens_feed it).
Qed.

End FilterSpec.

(* ===================================================================== *)
(** * Properties of the ingestion loops and of the seen set *)
(* ===================================================================== *)

Module IngestSpec.
Import Utils Scraper.

(** ** The seen-set file *)

Lemma load_seen_rows (l : list string) (acc : gset string) :
  foldl (fun seen row => match row with
                         | [] => seen
                         | u :: _ => {[ u ]} ∪ seen
                         end) acc ((fun u => [u]) <$> l)
  = list_to_set l ∪ acc.
Proof.
  revert acc. induction l as [|u l IH]; intros acc; simpl.
  - set_solver.
  - rewrite IH. set_solver.
Qed.

Lemma sorted_elements (s : gset string) u : u ∈ sorted s <-> u ∈ s.
Proof.
  unfold sorted. rewrite merge_sort_Permutation. apply elem_of_elements.
Qed.

(** What [save_seen] writes is read back by [load_seen] as the same set. *)
Lemma load_save_seen (s : gset string) : load_seen (save_seen s) = s.
Proof.
  unfold load_seen, save_seen. rewrite load_seen_rows.
  apply set_eq. intros u. rewrite elem_of_union, elem_of_list_to_set, sorted_elements.
  set_solver.
Qed.

Section Loops.
Variables BOROUGHS MUST_ANY : list string.
Variable fetch_page : string -> option string.

Abbreviation keeps := (keeps BOROUGHS MUST_ANY).
Abbreviation process_item := (process_item BOROUGHS MUST_ANY fetch_page).
Abbreviation process_source := (process_source BOROUGHS MUST_ANY fetch_page).
Abbreviation prepared := (prepared fetch_page).
Abbreviation inv := (inv BOROUGHS MUST_ANY).

Lemma url_prepared src it : url (prepared src it) = url it.
Proof. reflexivity. Qed.

Lemma truthy_filter_single it :
  truthy (filter_items BOROUGHS MUST_ANY [it]) = keeps it.
Proof. simpl. by destruct (keeps it). Qed.

(** The loop body, case by case. *)
Lemma process_item_seen src st it :
  url it ∈ seen st -> process_item src st it = st.
Proof.
  intros Hin. unfold process_item. simpl.
  by rewrite bool_decide_eq_true_2.
Qed.

Lemma process_item_kept src st it :
  url it ∉ seen st -> keeps (prepared src it) = true ->
  process_item src st it =
  mkState ({[ url it ]} ∪ seen st) (rows st ++ [prepared src it])
          (processed st ++ [prepared src it]).
Proof.
  intros Hin Hk. unfold process_item. cbn [url set_feed_name set_source].
  rewrite bool_decide_eq_false_2 by exact Hin.
  fold (prepared src it). by rewrite truthy_filter_single, Hk.
Qed.

Lemma process_item_rejected src st it :
  url it ∉ seen st -> keeps (prepared src it) = false ->
  process_item src st it =
  mkState (seen st) (rows st) (processed st ++ [prepared src it]).
Proof.
  intros Hin Hk. unfold process_item. cbn [url set_feed_name set_source].
  rewrite bool_decide_eq_false_2 by exact Hin.
  fold (prepared src it). by rewrite truthy_filter_single, Hk.
Qed.

Lemma inv_init seen0 : inv seen0 (mkState seen0 [] []).
Proof.
  split; simpl.
  - set_solver.
  - intros r Hr. inversion Hr.
  - intros r Hr. inversion Hr.
Qed.

Lemma inv_process_item seen0 src st it :
  inv seen0 st -> inv seen0 (process_item src st it).
Proof.
  intros [Hs Hk Hr].
  destruct (decide (url it ∈ seen st)) as [Hin|Hin].
  { rewrite process_item_seen by done. by split. }
  destruct (keeps (prepared src it)) eqn:Hkeep.
  - rewrite process_item_kept by done. split; simpl.
    + rewrite Hs, fmap_app, list_to_set_app_L. simpl. set_solver.
    + intros r [Hin'|Heq%list_elem_of_singleton]%elem_of_app; [auto | by subst].
    + intros r [Hin'|Heq]%elem_of_app; apply elem_of_app; auto.
  - rewrite process_item_rejected by done. split; simpl.
    + done.
    + done.
    + intros r Hin'. apply elem_of_app; auto.
Qed.

(** The loops only add to what is kept and to what is processed. *)
Lemma extends_refl st : extends st st.
Proof. by split. Qed.

Lemma extends_trans st1 st2 st3 : extends st1 st2 -> extends st2 st3 -> extends st1 st3.
Proof. intros [H1 H2] [H3 H4]. split; by etrans. Qed.

Lemma extends_process_item src st it : extends st (process_item src st it).
Proof.
  unfold Scraper.process_item.
  repeat case_match; split; simpl; try done; by apply list_subseteq_app_l.
Qed.

Lemma extends_items src items st : extends st (foldl (process_item src) st items).
Proof.
  revert st. induction items as [|it items IH]; intros st; simpl.
  - apply extends_refl.
  - eapply extends_trans; [apply extends_process_item | apply IH].
Qed.

Lemma extends_process_source parse st src : extends st (process_source parse st src).
Proof.
  unfold Scraper.process_source. destruct (parse src).
  - apply extends_refl.
  - apply extends_items.
Qed.

Lemma extends_sources parse srcs st :
  extends st (foldl (process_source parse) st srcs).
Proof.
  revert st. induction srcs as [|src srcs IH]; intros st; simpl.
  - apply extends_refl.
  - eapply extends_trans; [apply extends_process_source | apply IH].
Qed.

Lemma inv_items seen0 src items st :
  inv seen0 st -> inv seen0 (foldl (process_item src) st items).
Proof.
  revert st. induction items as [|it items IH]; intros st Hst; simpl; [done|].
  apply IH. by apply inv_process_item.
Qed.

Lemma inv_process_source seen0 parse st src :
  inv seen0 st -> inv seen0 (process_source parse st src).
Proof.
  intros Hst. unfold Scraper.process_source. destruct (parse src); [done|].
  by apply inv_items.
Qed.

Lemma inv_sources seen0 parse srcs st :
  inv seen0 st -> inv seen0 (foldl (process_source parse) st srcs).
Proof.
  revert st. induction srcs as [|src srcs IH]; intros st Hst; simpl; [done|].
  apply IH. by apply inv_process_source.
Qed.

(** ** What a fetched item brings about *)

Section Reach.
(** [Q] is a fact about the state that stays once it holds, and that holds
    once the loop body has run on [it] for the source [src]. *)
Variable seen0 : gset string.
Variable src : Src.
Variable it : Item.
Variable Q : State -> Prop.
Hypothesis Q_stays : forall st st', extends st st' -> Q st -> Q st'.
Hypothesis Q_body : forall st, inv seen0 st -> Q (process_item src st it).

Lemma items_reach items st :
  inv seen0 st -> it ∈ items -> Q (foldl (process_item src) st items).
Proof.
  revert st. induction items as [|x items IH]; intros st Hst Hin; simpl.
  - inversion Hin.
  - apply elem_of_cons in Hin as [<-|Hin].
    + eapply Q_stays; [apply extends_items | by apply Q_body].
    + apply IH; [by apply inv_process_item | done].
Qed.

Lemma sources_reach parse srcs st items :
  inv seen0 st -> src ∈ srcs -> parse src = Returns items -> it ∈ take 80 items ->
  Q (foldl (process_source parse) st srcs).
Proof.
  revert st. induction srcs as [|s srcs IH]; intros st Hst Hsrc Hp Hin; simpl.
  - inversion Hsrc.
  - apply elem_of_cons in Hsrc as [<-|Hsrc].
    + eapply Q_stays; [apply extends_sources|].
      unfold Scraper.process_source. rewrite Hp. by apply items_reach.
    + apply IH; [by apply inv_process_source | done..].
Qed.

Lemma ingest_reach parse_rss parse_html_list SOURCES items :
  (src ∈ rss_sources SOURCES /\ parse_rss src = Returns items) \/
  (src ∈ html_sources SOURCES /\ parse_html_list src = Returns items) ->
  it ∈ take 80 items ->
  Q (Scraper.ingest BOROUGHS MUST_ANY fetch_page parse_rss parse_html_list
       SOURCES seen0).
Proof.
  intros [[Hsrc Hp]|[Hsrc Hp]] Hit; unfold Scraper.ingest.
  - eapply Q_stays; [apply extends_sources|].
    eapply sources_reach; [apply inv_init | done..].
  - eapply sources_reach; [apply inv_sources, inv_init | done..].
Qed.
End Reach.

(** An item that reaches the loop body with a link the run did not load
    is enriched and filtered during the run. *)
Lemma process_item_logs seen0 src st it :
  url it ∉ seen0 -> inv seen0 st ->
  exists it', it' ∈ processed (process_item src st it) /\ url it' = url it.
Proof.
  intros Hnew Hst.
  destruct (decide (url it ∈ seen st)) as [Hin|Hin].
  - rewrite process_item_seen by done.
    destruct Hst as [Hseen _ Hrows]. rewrite Hseen in Hin.
    apply elem_of_union in Hin as [Hin|Hin]; [done|].
    apply elem_of_list_to_set, list_elem_of_fmap in Hin as [r [Hu Hr]].
    exists r. split; [by apply Hrows | done].
  - exists (prepared src it). split; [|done].
    destruct (keeps (prepared src it)) eqn:Hkeep.
    + rewrite process_item_kept by done. simpl. apply elem_of_app. right. constructor.
    + rewrite process_item_rejected by done. simpl. apply elem_of_app. right. constructor.
Qed.

(** If it also passes the filter, its link is the link of a kept row. *)
Lemma process_item_collects seen0 src st it :
  url it ∉ seen0 -> keeps (prepared src it) = true -> inv seen0 st ->
  exists r, r ∈ rows (process_item src st it) /\ url r = url it.
Proof.
  intros Hnew Hkeep Hst.
  destruct (decide (url it ∈ seen st)) as [Hin|Hin].
  - rewrite process_item_seen by done.
    destruct Hst as [Hseen _ _]. rewrite Hseen in Hin.
    apply elem_of_union in Hin as [Hin|Hin]; [done|].
    apply elem_of_list_to_set, list_elem_of_fmap in Hin as [r [Hu Hr]].
    by exists r.
  - exists (prepared src it). split; [|done].
    rewrite process_item_kept by done. simpl. apply elem_of_app. right. constructor.
Qed.

(** ** The whole ingestion *)

Variables parse_rss parse_html_list : Src -> outcome (list Item).

Abbreviation ingest := (ingest BOROUGHS MUST_ANY fetch_page).

Lemma ingest_inv SOURCES seen0 :
  inv seen0 (ingest parse_rss parse_html_list SOURCES seen0).
Proof. unfold Scraper.ingest. do 2 apply inv_sources. apply inv_init. Qed.

(** Every item of a source that answered, within its first 80, whose link
    the run did not load, is enriched and filtered during the run,
    whatever the other sources did. *)
Lemma ingest_logs SOURCES seen0 src items it :
  (src ∈ rss_sources SOURCES /\ parse_rss src = Returns items) \/
  (src ∈ html_sources SOURCES /\ parse_html_list src = Returns items) ->
  it ∈ take 80 items -> url it ∉ seen0 ->
  exists it', it' ∈ processed (ingest parse_rss parse_html_list SOURCES seen0)
              /\ url it' = url it.
Proof.
  intros Hsrc Hit Hnew.
  apply (ingest_reach seen0 src it
           (fun st => exists it', it' ∈ processed st /\ url it' = url it))
    with (items := items); [| |done..].
  - intros st st' [_ Hsub] [it' [Hin Hu]]. exists it'. split; [by apply Hsub | done].
  - intros st. by apply process_item_logs.
Qed.

(** And when it passes the filter, a row with its link is kept. *)
Lemma ingest_collects SOURCES seen0 src items it :
  (src ∈ rss_sources SOURCES /\ parse_rss src = Returns items) \/
  (src ∈ html_sources SOURCES /\ parse_html_list src = Returns items) ->
  it ∈ take 80 items -> url it ∉ seen0 -> keeps (prepared src it) = true ->
  exists r, r ∈ rows (ingest parse_rss parse_html_list SOURCES seen0)
            /\ url r = url it.
Proof.
  intros Hsrc Hit Hnew Hkeep.
  apply (ingest_reach seen0 src it
           (fun st => exists r, r ∈ rows st /\ url r = url it))
    with (items := items); [| |done..].
  - intros st st' [Hsub _] [r [Hin Hu]]. exists r. split; [by apply Hsub | done].
  - intros st. by apply process_item_collects.
Qed.

Lemma process_source_quiet parse st src :
  process_source (quiet parse) st src = process_source parse st src.
Proof. unfold Scraper.process_source, quiet. by destruct (parse src). Qed.

Lemma sources_quiet parse srcs st :
  foldl (process_source (quiet parse)) st srcs = foldl (process_source parse) st srcs.
Proof.
  revert st. induction srcs as [|src srcs IH]; intros st; simpl; [done|].
  by rewrite process_source_quiet, IH.
Qed.

(** A source that raises leaves the run as a source without items does. *)
Lemma ingest_quiet SOURCES seen0 :
  ingest (quiet parse_rss) (quiet parse_html_list) SOURCES seen0 =
  ingest parse_rss parse_html_list SOURCES seen0.
Proof. unfold Scraper.ingest. by rewrite !sources_quiet. Qed.

End Loops.

(** C10. The seen set that a run of [scraper.py] persists is the set it
    loaded together with exactly the links of the rows it kept, and every
    kept row passes the relevance filter.  The loop body leaves the seen set
    and the rows as they are when the filter rejects the item; and in any
    later run that starts from the persisted set, an item that is fetched
    with a link outside that set is enriched and filtered again (itself, or
    an item of that run with the same link that came before it). *)
Theorem seen_set_follows_kept_rows
    BOROUGHS MUST_ANY fetch_page parse_rss parse_html_list SOURCES now
    (file : SeenFile) :
  let seen0 := load_seen file in
  let st := ingest BOROUGHS MUST_ANY fetch_page parse_rss parse_html_list SOURCES seen0 in
  let persisted :=
    load_seen (main BOROUGHS MUST_ANY fetch_page parse_rss parse_html_list
                    SOURCES now file).2 in
  persisted = seen0 ∪ list_to_set (url <$> rows st)
  /\ (forall r, r ∈ rows st -> filter_items BOROUGHS MUST_ANY [r] = [r])
  /\ (forall src st' it,
        url it ∉ seen st' ->
        filter_items BOROUGHS MUST_ANY [prepared fetch_page src it] = [] ->
        seen (process_item BOROUGHS MUST_ANY fetch_page src st' it) = seen st'
        /\ rows (process_item BOROUGHS MUST_ANY fetch_page src st' it) = rows st')
  /\ (forall fetch_page' parse_rss' parse_html_list' SOURCES' src items it,
        (src ∈ rss_sources SOURCES' /\ parse_rss' src = Returns items) \/
        (src ∈ html_sources SOURCES' /\ parse_html_list' src = Returns items) ->
        it ∈ take 80 items -> url it ∉ persisted ->
        exists it',
          it' ∈ processed (ingest BOROUGHS MUST_ANY fetch_page' parse_rss'
                                  parse_html_list' SOURCES' persisted)
          /\ url it' = url it).
Proof.
  intros seen0 st persisted.
  destruct (ingest_inv BOROUGHS MUST_ANY fetch_page parse_rss parse_html_list
              SOURCES seen0) as [Hseen Hkept _].
  fold st in Hseen, Hkept.
  assert (Hp : persisted = seen0 ∪ list_to_set (url <$> rows st)).
  { unfold persisted, main. cbn [snd]. by rewrite load_save_seen. }
  split; [exact Hp|]. split; [|split].
  - intros r Hr. rewrite FilterSpec.filter_items_single. by rewrite (Hkept r Hr).
  - intros src st' it Hnew Hrej.
    rewrite FilterSpec.filter_items_single in Hrej.
    destruct (keeps BOROUGHS MUST_ANY (prepared fetch_page src it)) eqn:Hk;
      [discriminate|].
    by rewrite process_item_rejected.
  - intros fetch_page' parse_rss' parse_html_list' SOURCES' src items it Hsrc Hit Hnew.
    by eapply ingest_logs.
Qed.

End IngestSpec.

(* ===================================================================== *)
(** * Properties of the dedup merger *)
(* ===================================================================== *)

Module DedupSpec.
Import Run.

Section KeepFirst.
Variable subset : list string.

Abbreviation key := (row_key subset).

Lemma keep_first_elem seen rs r :
  r ∈ keep_first subset seen rs -> r ∈ rs /\ key r ∉ seen.
Proof.
  revert seen. induction rs as [|x rs IH]; intros seen; simpl.
  - intros Hr. inversion Hr.
  - case_bool_decide as Hx.
    + intros [Hr Hk]%IH. split; [by right | done].
    + intros [->|[Hr Hk]%IH]%elem_of_cons.
      * split; [by left | done].
      * split; [by right|]. intros Hin. apply Hk. by right.
Qed.

Lemma keep_first_keys seen rs k :
  k ∈ key <$> keep_first subset seen rs <-> k ∈ key <$> rs /\ k ∉ seen.
Proof.
  revert seen. induction rs as [|x rs IH]; intros seen; simpl.
  - rewrite elem_of_nil. tauto.
  - case_bool_decide as Hx; rewrite ?fmap_cons, !elem_of_cons, IH.
    + split; [tauto|]. intros [[->|Hin] Hk]; tauto.
    + rewrite elem_of_cons. split.
      * intros [->|[Hin Hk]]; [tauto|]. split; [tauto|]. intros Hin'. apply Hk. tauto.
      * intros [[->|Hin] Hk]; [tauto|].
        destruct (decide (k = key x)) as [->|Hne]; [tauto|]. right. tauto.
Qed.

Lemma keep_first_NoDup seen rs : NoDup (key <$> keep_first subset seen rs).
Proof.
  revert seen. induction rs as [|x rs IH]; intros seen; simpl.
  - constructor.
  - case_bool_decide as Hx; [apply IH|].
    rewrite fmap_cons. constructor; [|apply IH].
    rewrite keep_first_keys. intros [_ Hk]. apply Hk. by left.
Qed.

(** First seen wins: of the rows that carry the key of [h], the first one
    stays, alone. *)
Lemma keep_first_first seen pre h post :
  key h ∉ seen -> (forall r, r ∈ pre -> key r <> key h) ->
  filter (fun r => key r = key h) (keep_first subset seen (pre ++ h :: post)) = [h].
Proof.
  revert seen. induction pre as [|x pre IH]; intros seen Hseen Hpre; simpl.
  - rewrite bool_decide_eq_false_2 by done.
    rewrite filter_cons_True by done. f_equal.
    destruct (filter _ _) as [|y l] eqn:Hf; [done|].
    assert (Hy : y ∈ filter (fun r => key r = key h)
                   (keep_first subset (key h :: seen) post))
      by (rewrite Hf; by left).
    apply list_elem_of_filter in Hy as [Hk [_ Hn]%keep_first_elem].
    exfalso. apply Hn. rewrite Hk. by left.
  - assert (Hx : key x <> key h) by (apply Hpre; by left).
    assert (Hpre' : forall r, r ∈ pre -> key r <> key h)
      by (intros r Hr; apply Hpre; by right).
    case_bool_decide as Hin.
    + by apply IH.
    + rewrite filter_cons_False by done. apply IH; [|done].
      intros [Heq|Hin']%elem_of_cons; [by apply Hx | by apply Hseen].
Qed.
End KeepFirst.

(** A frame with rows and columns is not empty. *)
Lemma not_empty df : rows df <> [] -> columns df <> [] -> empty df = false.
Proof.
  intros Hr Hc. unfold empty.
  by rewrite !bool_decide_eq_false_2.
Qed.

Lemma empty_false df : empty df = false -> rows df <> [] /\ columns df <> [].
Proof.
  unfold empty. intros [H1 H2]%orb_false_elim.
  by apply bool_decide_eq_false in H1, H2.
Qed.

Lemma elem_of_List_filter {A} (f : A -> bool) (l : list A) x :
  x ∈ List.filter f l <-> x ∈ l /\ f x = true.
Proof. rewrite !list_elem_of_In. apply filter_In. Qed.

Lemma elem_of_concat_columns a b c :
  c ∈ columns (concat a b) <-> c ∈ columns a \/ c ∈ columns b.
Proof.
  unfold concat. simpl.
  rewrite elem_of_app, elem_of_List_filter, negb_true_iff, bool_decide_eq_false.
  destruct (decide (c ∈ columns a)); tauto.
Qed.

(** With a history that has rows, the merger concatenates and keeps the
    first row of every (title, link) pair. *)
Lemma dedupe_history df_new df_old :
  empty df_old = false -> keyed df_old \/ keyed df_new ->
  _dedupe df_new (Some df_old) =
  Ok (mkDataFrame (columns (concat df_old df_new))
        (keep_first ["title"; "link"] [] (rows df_old ++ rows df_new))).
Proof.
  intros Hne Hk. unfold _dedupe. rewrite Hne.
  apply empty_false in Hne as [Hr Hc].
  unfold drop_duplicates. rewrite not_empty; cycle 1.
  { simpl. by destruct (rows df_old). }
  { simpl. by destruct (columns df_old). }
  assert (Ht : "title" ∈ columns (concat df_old df_new))
    by (apply elem_of_concat_columns; unfold keyed in Hk; tauto).
  assert (Hl : "link" ∈ columns (concat df_old df_new))
    by (apply elem_of_concat_columns; unfold keyed in Hk; tauto).
  cbn [List.filter]. by rewrite !bool_decide_eq_true_2.
Qed.

(** Without a history, or with one that has no rows, the new frame comes
    back as it is. *)
Lemma dedupe_no_history df_new df_old :
  df_old = None \/ (exists old, df_old = Some old /\ empty old = true) ->
  _dedupe df_new df_old = Ok df_new.
Proof.
  intros [->|[old [-> He]]]; simpl; [done|]. by rewrite He.
Qed.

(** With a history that has rows, no two rows of the result share their
    (title, link) pair. *)
Lemma dedupe_history_NoDup df_new df_old :
  empty df_old = false -> keyed df_old \/ keyed df_new ->
  exists out, _dedupe df_new (Some df_old) = Ok out /\
              NoDup (title_link <$> rows out).
Proof.
  intros Hne Hk. eexists. split; [by apply dedupe_history|].
  simpl. apply keep_first_NoDup.
Qed.

(** C1. Where the invariant of the collections fails: without a history,
    or with a history without rows, the merger hands back the new records
    as they are, two records of one (title, link) pair included; and a
    first run, which finds no workbook, writes both of them to each
    partition. *)
Theorem dedupe_without_history_keeps_duplicates :
  let df_new := Sample.frame [Sample.H; Sample.N] in
  let env := mkEnv (Some (Returns [Sample.H; Sample.N])) None None
                   Sample.T Sample.T None in
  title_link Sample.H = title_link Sample.N
  /\ Sample.H <> Sample.N
  /\ _dedupe df_new None = Ok df_new
  /\ _dedupe df_new (Some empty_frame) = Ok df_new
  /\ __main__ Sample.no_text_dates env Missing
     = _save_excel (Some df_new) (Some df_new).
Proof.
  cbv zeta. split; [vm_compute; reflexivity|]. split; [compute_done|].
  repeat split; vm_compute; reflexivity.
Qed.

(** C2, as stated, fails on a history that holds two records of the pair:
    the merge keeps the first of them, [H0], and neither [H] nor [N]. *)
Lemma first_seen_wins_counterexample :
  let history := Sample.frame [Sample.H0; Sample.H] in
  let df_new := Sample.frame [Sample.N] in
  Sample.H ∈ rows history
  /\ Sample.N ∈ rows df_new
  /\ Sample.H !! "title" = Some (Str "A") /\ Sample.H !! "link" = Some (Str "L")
  /\ Sample.N !! "title" = Some (Str "A") /\ Sample.N !! "link" = Some (Str "L")
  /\ _dedupe df_new (Some history) = Ok (Sample.frame [Sample.H0])
  /\ Sample.H ∉ rows (Sample.frame [Sample.H0]).
Proof.
  simpl. repeat split; try (vm_compute; reflexivity).
  - apply elem_of_cons. right. apply elem_of_cons. by left.
  - apply elem_of_cons. by left.
  - compute_done.
Qed.

(** C2, amended. When [h] is the first record of the history that carries
    its (title, link) pair, the merge holds [h], with the fields it has in
    the history, as its only record of that pair: no record of the new
    collection that carries the pair and differs from [h] is in it. *)
Theorem first_seen_wins df_new df_old pre h post :
  rows df_old = (pre ++ h :: post)%list ->
  (forall r, r ∈ pre -> title_link r <> title_link h) ->
  keyed df_old ->
  exists out, _dedupe df_new (Some df_old) = Ok out
    /\ filter (fun r => title_link r = title_link h) (rows out) = [h]
    /\ h ∈ rows out
    /\ (forall n, n ∈ rows df_new -> title_link n = title_link h -> n <> h ->
                  n ∉ rows out).
Proof.
  intros Hrows Hpre Hk.
  assert (Hne : empty df_old = false).
  { apply not_empty.
    - rewrite Hrows. by destruct pre.
    - destruct Hk as [Ht _]. intros Hc. rewrite Hc in Ht. inversion Ht. }
  eexists. split; [apply dedupe_history; auto|]. simpl.
  assert (Hf : filter (fun r => title_link r = title_link h)
                 (keep_first ["title"; "link"] [] (rows df_old ++ rows df_new)) = [h]).
  { rewrite Hrows, <- app_assoc. simpl.
    apply (keep_first_first ["title"; "link"]); [apply not_elem_of_nil | done]. }
  split; [exact Hf|]. split.
  - assert (Hin : h ∈ [h]) by (by left).
    rewrite <- Hf in Hin. by apply list_elem_of_filter in Hin as [_ Hin].
  - intros n _ Hkn Hneq Hin.
    assert (Hn : n ∈ [h]) by (rewrite <- Hf; by apply list_elem_of_filter).
    by apply list_elem_of_singleton in Hn.
Qed.

Lemma first_seen_wins_witness :
  exists out, _dedupe (Sample.frame [Sample.N])
                      (Some (Sample.frame [Sample.other; Sample.H])) = Ok out
    /\ filter (fun r => title_link r = title_link Sample.H) (rows out) = [Sample.H]
    /\ Sample.H ∈ rows out
    /\ (forall n, n ∈ rows (Sample.frame [Sample.N]) ->
                  title_link n = title_link Sample.H -> n <> Sample.H ->
                  n ∉ rows out).
Proof.
  apply (first_seen_wins (Sample.frame [Sample.N])
           (Sample.frame [Sample.other; Sample.H]) [Sample.other] Sample.H []).
  - reflexivity.
  - intros r Hr. apply list_elem_of_singleton in Hr. subst r. compute_done.
  - split; vm_compute; repeat constructor.
Defined.

(** C7. Merging a record collection with itself gives a collection with as
    many distinct (title, link) pairs as the collection has. *)
Theorem dedupe_self_distinct_pairs C :
  keyed C ->
  exists out, _dedupe C (Some C) = Ok out /\ distinct_pairs out = distinct_pairs C.
Proof.
  intros Hk. destruct (empty C) eqn:He.
  - exists C. split; [|done]. apply dedupe_no_history. right. by exists C.
  - eexists. split; [apply dedupe_history; auto|].
    unfold distinct_pairs. simpl. apply Permutation_length.
    apply NoDup_Permutation; [apply NoDup_remove_dups..|].
    intros k. rewrite !elem_of_remove_dups.
    unfold title_link. rewrite keep_first_keys, fmap_app, elem_of_app.
    pose proof (not_elem_of_nil k). tauto.
Qed.

Lemma dedupe_self_distinct_pairs_witness :
  exists out,
    _dedupe (Sample.frame [Sample.H; Sample.N; Sample.other])
            (Some (Sample.frame [Sample.H; Sample.N; Sample.other])) = Ok out
    /\ distinct_pairs out
       = distinct_pairs (Sample.frame [Sample.H; Sample.N; Sample.other]).
Proof.
  apply (dedupe_self_distinct_pairs
           (Sample.frame [Sample.H; Sample.N; Sample.other])).
  split; vm_compute; repeat constructor.
Defined.

End DedupSpec.

(* ===================================================================== *)
(** * Properties of the window rollup *)
(* ===================================================================== *)

Module WindowSpec.
Import Run.

Section Window.
Variable parse_utc : string -> option Z.

Abbreviation parsed_date := (parsed_date parse_utc).
Abbreviation in_window := (in_window parse_utc).
Abbreviation _fresh_filter := (_fresh_filter parse_utc).

Abbreviation with_parsed := (with_parsed parse_utc).

Lemma not_before_with_parsed cutoff r :
  not_before cutoff (with_parsed r) = in_window cutoff r.
Proof.
  unfold not_before, Run.with_parsed, Run.in_window, Run.parsed_date.
  destruct (to_datetime parse_utc (r !! "date")) as [t|]; simpl.
  - by rewrite lookup_insert_eq.
  - by rewrite lookup_delete_eq.
Qed.

Lemma delete_with_parsed r :
  delete "date_parsed" (with_parsed r) = delete "date_parsed" r.
Proof.
  unfold Run.with_parsed.
  destruct (to_datetime parse_utc (r !! "date")) as [t|]; simpl.
  - apply delete_insert_eq.
  - apply delete_delete_eq.
Qed.

Lemma filter_with_parsed cutoff rs :
  delete "date_parsed" <$> List.filter (not_before cutoff) (with_parsed <$> rs)
  = delete "date_parsed" <$> List.filter (in_window cutoff) rs.
Proof.
  induction rs as [|r rs IH]; [done|].
  rewrite fmap_cons. cbn [List.filter]. rewrite not_before_with_parsed.
  destruct (in_window cutoff r); [|exact IH].
  by rewrite !fmap_cons, delete_with_parsed, IH.
Qed.

Lemma drop_assigned_columns cols :
  List.filter (fun c' => negb (bool_decide (c' = "date_parsed")))
    (if bool_decide ("date_parsed" ∈ cols) then cols
     else (cols ++ ["date_parsed"])%list)
  = List.filter (fun c' => negb (bool_decide (c' = "date_parsed"))) cols.
Proof.
  case_bool_decide; [done|].
  rewrite List.filter_app. simpl. apply app_nil_r.
Qed.

(** What the filter returns for a frame with rows and a date column. *)
Lemma fresh_filter_frame df window_td utcnow :
  empty df = false -> "date" ∈ columns df ->
  _fresh_filter (Some df) window_td utcnow =
  Ok (mkDataFrame
        (List.filter (fun c' => negb (bool_decide (c' = "date_parsed"))) (columns df))
        (delete "date_parsed" <$>
           List.filter (in_window (utcnow - window_td)) (rows df))).
Proof.
  intros He Hd. unfold Run._fresh_filter. rewrite He.
  rewrite bool_decide_eq_true_2 by done.
  unfold drop, assign. cbn [columns rows]. f_equal. f_equal.
  - apply drop_assigned_columns.
  - apply filter_with_parsed.
Qed.

Lemma parsed_date_delete r : parsed_date (delete "date_parsed" r) = parsed_date r.
Proof. unfold Run.parsed_date. by rewrite lookup_delete_ne. Qed.

(** A row is in the result exactly when a row of the frame with its
    cells is in the window. *)
Lemma fresh_filter_elem df window_td utcnow x :
  empty df = false -> "date" ∈ columns df ->
  exists out, _fresh_filter (Some df) window_td utcnow = Ok out /\
    (x ∈ rows out <->
     exists r, r ∈ rows df /\ x = delete "date_parsed" r
               /\ in_window (utcnow - window_td) r = true).
Proof.
  intros He Hd. eexists. split; [by apply fresh_filter_frame|].
  cbn [rows]. rewrite list_elem_of_fmap.
  setoid_rewrite DedupSpec.elem_of_List_filter. naive_solver.
Qed.

Lemma fresh_filter_in df window_td utcnow r :
  "date" ∈ columns df -> r ∈ rows df ->
  exists out, _fresh_filter (Some df) window_td utcnow = Ok out /\
    (delete "date_parsed" r ∈ rows out <->
     in_window (utcnow - window_td) r = true).
Proof.
  intros Hd Hr.
  assert (He : empty df = false).
  { apply DedupSpec.not_empty.
    - intros Hnil. rewrite Hnil in Hr. inversion Hr.
    - intros Hnil. rewrite Hnil in Hd. inversion Hd. }
  destruct (fresh_filter_elem df window_td utcnow (delete "date_parsed" r) He Hd)
    as [out [Hout Hiff]].
  exists out. split; [done|]. rewrite Hiff. split.
  - intros [r' [_ [Heq Hw]]].
    unfold Run.in_window in *.
    by rewrite <- (parsed_date_delete r), Heq, parsed_date_delete.
  - intros Hw. by exists r.
Qed.

(** C3. With the daily window of 48 hours and the clock at [T], the
    window filter returns every record whose date reads as [T] minus 47
    hours, and no record whose date reads as [T] minus 49 hours.  (The
    record comes back without the helper column [date_parsed], which the
    filter drops.) *)
Theorem window_48h df (r : Row) (T : Z) :
  "date" ∈ columns df -> r ∈ rows df ->
  DAILY_WINDOW = hours 48 /\
  exists out, _fresh_filter (Some df) DAILY_WINDOW T = Ok out /\
    (parsed_date r = Some (T - hours 47) -> delete "date_parsed" r ∈ rows out) /\
    (parsed_date r = Some (T - hours 49) -> delete "date_parsed" r ∉ rows out).
Proof.
  intros Hd Hr. split; [reflexivity|].
  destruct (fresh_filter_in df DAILY_WINDOW T r Hd Hr) as [out [Hout Hiff]].
  exists out. split; [done|]. rewrite Hiff. unfold Run.in_window. split.
  - intros ->. apply bool_decide_eq_true_2.
    unfold DAILY_WINDOW, days, hours. lia.
  - intros ->. rewrite bool_decide_eq_false_2; [done|].
    unfold DAILY_WINDOW, days, hours. lia.
Qed.

(** The absent-date policy of [run.py]: a record whose date reads as no
    instant is in no window. *)
Lemma fresh_filter_absent df window_td utcnow r :
  "date" ∈ columns df -> r ∈ rows df -> parsed_date r = None ->
  exists out, _fresh_filter (Some df) window_td utcnow = Ok out /\
              delete "date_parsed" r ∉ rows out.
Proof.
  intros Hd Hr Hnone.
  destruct (fresh_filter_in df window_td utcnow r Hd Hr) as [out [Hout Hiff]].
  exists out. split; [done|]. rewrite Hiff. unfold Run.in_window.
  by rewrite Hnone.
Qed.

End Window.

Lemma window_48h_witness :
  exists out,
    Run._fresh_filter Sample.no_text_dates
      (Some (Sample.frame [Sample.at_47h; Sample.at_49h])) DAILY_WINDOW Sample.T
    = Ok out
    /\ Sample.at_47h ∈ rows out /\ Sample.at_49h ∉ rows out.
Proof.
  destruct (window_48h Sample.no_text_dates
              (Sample.frame [Sample.at_47h; Sample.at_49h]) Sample.at_47h Sample.T)
    as [_ [out [Hout [Hin _]]]].
  { vm_compute. repeat constructor. }
  { apply elem_of_cons. by left. }
  destruct (window_48h Sample.no_text_dates
              (Sample.frame [Sample.at_47h; Sample.at_49h]) Sample.at_49h Sample.T)
    as [_ [out' [Hout' [_ Hout49]]]].
  { vm_compute. repeat constructor. }
  { apply elem_of_cons. right. apply elem_of_cons. by left. }
  rewrite Hout in Hout'. injection Hout' as <-.
  exists out. split; [exact Hout|]. split.
  - apply (Hin eq_refl).
  - apply (Hout49 eq_refl).
Defined.

End WindowSpec.

(* ===================================================================== *)
(** * Properties of a run of run.py *)
(* ===================================================================== *)

Module RunSpec.
Import Run.

(** ** Columns *)

Lemma project_lookup cols (r : Row) c :
  c ∈ cols -> project cols r !! c = r !! c.
Proof.
  intros Hc. unfold project. rewrite map_lookup_filter.
  destruct (r !! c) as [v|]; simpl; [|done].
  by rewrite option_guard_True.
Qed.

Lemma project_idem cols (r : Row) : project cols (project cols r) = project cols r.
Proof.
  unfold project. apply map_filter_id.
  intros c v Hcv. by apply map_lookup_filter_Some in Hcv as [_ Hc].
Qed.

Lemma project_no_helper (r : Row) : project COLS r !! "date_parsed" = None.
Proof.
  unfold project. apply map_lookup_filter_None. right. intros v _ Hin.
  simpl in Hin. apply (bool_decide_pack _) in Hin. by vm_compute in Hin.
Qed.

Lemma title_link_project (r : Row) : title_link (project COLS r) = title_link r.
Proof.
  unfold title_link, row_key. simpl.
  rewrite !project_lookup; [done|vm_compute; repeat constructor..].
Qed.

Lemma parsed_date_project parse_utc (r : Row) :
  parsed_date parse_utc (project COLS r) = parsed_date parse_utc r.
Proof.
  unfold parsed_date. rewrite project_lookup; [done|]. vm_compute. repeat constructor.
Qed.

(** On a frame with the six columns [_ensure_cols] only selects them. *)
Lemma ensure_cols_canonical df :
  columns df = COLS -> _ensure_cols (Some df) = select COLS df.
Proof.
  destruct df as [cols rs]. simpl. intros ->.
  unfold _ensure_cols, COLS. cbn [foldl columns].
  by rewrite !bool_decide_eq_true_2 by (repeat constructor).
Qed.

(** ** Crawling *)

Lemma extend_safe_fetched rs m : extend_safe rs m = (rs ++ fetched m)%list.
Proof. destruct m as [[|items]|]; simpl; by rewrite ?app_nil_r. Qed.

(** The crawl collects the records of the modules that answered, in the
    order of the modules, cut to the six columns. *)
Lemma crawl_all_safe_fetched p y c :
  crawl_all_safe p y c = from_records (fetched p ++ fetched y ++ fetched c) COLS.
Proof.
  unfold crawl_all_safe. rewrite !extend_safe_fetched, app_nil_l, <- app_assoc.
  rewrite ensure_cols_canonical by reflexivity.
  unfold select, from_records. simpl. f_equal.
  rewrite <- list_fmap_compose. apply list_fmap_ext. intros _ r _. simpl.
  apply project_idem.
Qed.

Lemma fetched_contained m : fetched (contained m) = fetched m.
Proof. by destruct m as [[|items]|]. Qed.

(** A module that raises leaves the crawl as a module without records
    does. *)
Lemma crawl_all_safe_contained p y c :
  crawl_all_safe (contained p) (contained y) (contained c) = crawl_all_safe p y c.
Proof. by rewrite !crawl_all_safe_fetched, !fetched_contained. Qed.

(** ** The two windows of a run *)

Section Main.
Variable parse_utc : string -> option Z.

Lemma fresh_filter_canonical df window_td utcnow :
  columns df = COLS ->
  exists out, _fresh_filter parse_utc (Some df) window_td utcnow = Ok out /\
    columns out = COLS /\
    rows out = delete "date_parsed" <$>
                 List.filter (in_window parse_utc (utcnow - window_td)) (rows df).
Proof.
  intros Hc. destruct (empty df) eqn:He.
  - exists empty_frame. unfold _fresh_filter. rewrite He. split; [done|]. split; [done|].
    unfold empty in He. rewrite Hc in He.
    rewrite (bool_decide_eq_false_2 (COLS = [])) in He by discriminate.
    rewrite orb_false_r in He. apply bool_decide_eq_true in He. by rewrite He.
  - eexists. split.
    + apply WindowSpec.fresh_filter_frame; [done|]. rewrite Hc. repeat constructor.
    + simpl. by rewrite Hc.
Qed.

(** A crawled record whose date is in the window is in the filtered frame,
    cut to the six columns. *)
Lemma fresh_filter_crawled rs window_td utcnow r :
  r ∈ rs -> in_window parse_utc (utcnow - window_td) r = true ->
  exists out, _fresh_filter parse_utc (Some (from_records rs COLS)) window_td utcnow
              = Ok out /\ columns out = COLS /\ project COLS r ∈ rows out.
Proof.
  intros Hr Hw.
  destruct (fresh_filter_canonical (from_records rs COLS) window_td utcnow)
    as [out [Hout [Hc Hrows]]]; [done|].
  exists out. split; [done|]. split; [done|].
  rewrite Hrows. apply list_elem_of_fmap. exists (project COLS r). split.
  - symmetry. apply delete_id, project_no_helper.
  - apply DedupSpec.elem_of_List_filter. split.
    + simpl. by apply list_elem_of_fmap_2.
    + unfold in_window in *. by rewrite parsed_date_project.
Qed.

(** ** Merging into the history *)

(** The merger returns for every history, once the new frame has the two
    columns of the pair; every new record has a record of its pair in the
    result. *)
Lemma dedupe_total df_new df_old :
  keyed df_new ->
  exists out, _dedupe df_new df_old = Ok out /\
    forall r, r ∈ rows df_new ->
      exists r', r' ∈ rows out /\ title_link r' = title_link r.
Proof.
  intros Hk. destruct df_old as [old|]; [destruct (empty old) eqn:He|].
  - exists df_new. split; [|by eauto]. apply DedupSpec.dedupe_no_history. right. by exists old.
  - eexists. split; [apply DedupSpec.dedupe_history; auto|].
    cbn [rows]. intros r Hr.
    assert (Hin : title_link r ∈ title_link <$>
              keep_first ["title"; "link"] [] (rows old ++ rows df_new)).
    { unfold title_link. apply DedupSpec.keep_first_keys. split; [|apply not_elem_of_nil].
      apply list_elem_of_fmap_2, elem_of_app. by right. }
    apply list_elem_of_fmap in Hin as [r' [Heq Hr']]. by exists r'.
  - exists df_new. by eauto.
Qed.

(** A crawled record whose date is in the window has a record of its
    (title, link) pair in the partition of that window. *)
Lemma crawled_in_partition rs window_td utcnow old filtered merged r :
  _fresh_filter parse_utc (Some (from_records rs COLS)) window_td utcnow = Ok filtered ->
  _dedupe filtered old = Ok merged ->
  r ∈ rs -> in_window parse_utc (utcnow - window_td) r = true ->
  exists r', r' ∈ rows merged /\ title_link r' = title_link r.
Proof.
  intros Hf Hm Hr Hw.
  destruct (fresh_filter_crawled rs window_td utcnow r Hr Hw) as [out [Hout [Hc Hrow]]].
  rewrite Hf in Hout. injection Hout as <-.
  destruct (dedupe_total filtered old) as [all [Hall Hkeys]];
    [unfold keyed; rewrite Hc; split; repeat constructor|].
  rewrite Hm in Hall. injection Hall as <-.
  destruct (Hkeys _ Hrow) as [r' [Hr' Hk]].
  exists r'. split; [done|]. by rewrite Hk, title_link_project.
Qed.

(** The merge of two frames of six columns has the six columns. *)
Lemma dedupe_columns df_new df_old out :
  columns df_new = COLS ->
  (forall old, df_old = Some old -> empty old = true \/ columns old = COLS) ->
  _dedupe df_new df_old = Ok out -> columns out = COLS.
Proof.
  intros Hn Ho. destruct df_old as [old|]; [|simpl; congruence].
  destruct (Ho old eq_refl) as [He|Hc].
  - simpl. rewrite He. congruence.
  - destruct (empty old) eqn:He; [simpl; rewrite He; congruence|].
    rewrite DedupSpec.dedupe_history; [|done|left; unfold keyed; rewrite Hc; split; repeat constructor].
    intros [= <-]. unfold concat. cbn [columns]. by rewrite Hc, Hn.
Qed.

(** ** The workbook *)

Lemma save_excel_well_formed daily weekly :
  columns daily = COLS -> columns weekly = COLS ->
  well_formed (_save_excel (Some daily) (Some weekly)).
Proof.
  intros Hd Hw. eexists. split; [reflexivity|]. simpl.
  rewrite lookup_insert_eq, lookup_insert_ne by done.
  rewrite lookup_insert_eq. simpl. by rewrite Hd, Hw.
Qed.

Lemma well_formed_compatible path : well_formed path -> compatible path.
Proof.
  intros [sheets [-> [Hd Hw]]] sheet df Hs Hl. simpl in Hl. right.
  apply elem_of_cons in Hs as [->|Hs]; [|apply list_elem_of_singleton in Hs as ->].
  - rewrite Hl in Hd. simpl in Hd. congruence.
  - rewrite Hl in Hw. simpl in Hw. congruence.
Qed.

(** ** One run *)

(** What a run that meets no fault does. *)
Lemma main_ok env path :
  fault env = None ->
  let new_df := crawl_all_safe (pincusco env) (yimby env) (cityrealty env) in
  exists daily_df weekly_df daily_all weekly_all,
    _fresh_filter parse_utc (Some new_df) DAILY_WINDOW (utcnow_daily env) = Ok daily_df
    /\ _fresh_filter parse_utc (Some new_df) WEEKLY_WINDOW (utcnow_weekly env) = Ok weekly_df
    /\ columns daily_df = COLS /\ columns weekly_df = COLS
    /\ _dedupe daily_df (_load_sheet path DAILY_SHEET) = Ok daily_all
    /\ _dedupe weekly_df (_load_sheet path WEEKLY_SHEET) = Ok weekly_all
    /\ main parse_utc env path = Ok (_save_excel (Some daily_all) (Some weekly_all)).
Proof.
  intros Hf new_df.
  assert (Hc : columns new_df = COLS)
    by (unfold new_df; by rewrite crawl_all_safe_fetched).
  destruct (fresh_filter_canonical new_df DAILY_WINDOW (utcnow_daily env) Hc)
    as [daily_df [Hd [Hdc _]]].
  destruct (fresh_filter_canonical new_df WEEKLY_WINDOW (utcnow_weekly env) Hc)
    as [weekly_df [Hw [Hwc _]]].
  assert (Hkd : keyed daily_df) by (unfold keyed; rewrite Hdc; split; repeat constructor).
  assert (Hkw : keyed weekly_df) by (unfold keyed; rewrite Hwc; split; repeat constructor).
  destruct (dedupe_total daily_df (_load_sheet path DAILY_SHEET) Hkd) as [daily_all [Hda _]].
  destruct (dedupe_total weekly_df (_load_sheet path WEEKLY_SHEET) Hkw) as [weekly_all [Hwa _]].
  exists daily_df, weekly_df, daily_all, weekly_all.
  repeat (split; [done|]).
  subst new_df. unfold main, reach. rewrite Hf.
  rewrite !bool_decide_eq_false_2 by done. cbn [mbind result_bind].
  rewrite Hd. cbn [mbind result_bind]. rewrite Hw. cbn [mbind result_bind].
  rewrite Hda. cbn [mbind result_bind]. by rewrite Hwa.
Qed.

(** A run that meets a fault leaves [main] by an exception. *)
Lemma main_fault env path s :
  fault env = Some s -> exists e, main parse_utc env path = Raise e.
Proof.
  intros Hf.
  set (new_df := crawl_all_safe (pincusco env) (yimby env) (cityrealty env)).
  assert (Hc : columns new_df = COLS)
    by (unfold new_df; by rewrite crawl_all_safe_fetched).
  destruct (fresh_filter_canonical new_df DAILY_WINDOW (utcnow_daily env) Hc)
    as [daily_df [Hd [Hdc _]]].
  destruct (fresh_filter_canonical new_df WEEKLY_WINDOW (utcnow_weekly env) Hc)
    as [weekly_df [Hw [Hwc _]]].
  assert (Hkd : keyed daily_df) by (unfold keyed; rewrite Hdc; split; repeat constructor).
  assert (Hkw : keyed weekly_df) by (unfold keyed; rewrite Hwc; split; repeat constructor).
  destruct (dedupe_total daily_df (_load_sheet path DAILY_SHEET) Hkd) as [daily_all [Hda _]].
  destruct (dedupe_total weekly_df (_load_sheet path WEEKLY_SHEET) Hkw) as [weekly_all [Hwa _]].
  subst new_df. unfold main, reach. rewrite Hf.
  destruct s;
    repeat first
      [ rewrite bool_decide_eq_true_2 by done
      | rewrite bool_decide_eq_false_2 by done
      | rewrite Hd | rewrite Hw | rewrite Hda | rewrite Hwa
      | progress cbn [mbind result_bind] ];
    eauto.
Qed.

(** After a run the artifact is well formed, whether [main] returned or
    raised. *)
Lemma main_well_formed env path :
  compatible path -> well_formed (__main__ parse_utc env path).
Proof.
  intros Hp. unfold __main__. destruct (fault env) as [s|] eqn:Hf.
  - destruct (main_fault env path s Hf) as [e ->].
    by apply save_excel_well_formed.
  - destruct (main_ok env path Hf)
      as (daily_df & weekly_df & daily_all & weekly_all & _ & _ & Hdc & Hwc & Hda & Hwa & ->).
    apply save_excel_well_formed.
    + eapply dedupe_columns; [exact Hdc| |exact Hda].
      intros old Hold. apply (Hp DAILY_SHEET); [by left | done].
    + eapply dedupe_columns; [exact Hwc| |exact Hwa].
      intros old Hold. apply (Hp WEEKLY_SHEET); [right; by left | done].
Qed.

(** A run in which a module raises is the run in which that module
    answers with no record. *)
Lemma main_contained env path :
  main parse_utc (contained_env env) path = main parse_utc env path.
Proof.
  unfold main, reach, contained_env. cbn [pincusco yimby cityrealty utcnow_daily
    utcnow_weekly fault].
  by rewrite crawl_all_safe_contained.
Qed.

Lemma runs_compatible envs path :
  compatible path -> compatible (runs parse_utc envs path).
Proof.
  revert path. induction envs as [|env envs IH]; intros path Hp; simpl; [done|].
  apply IH, well_formed_compatible, main_well_formed, Hp.
Qed.

End Main.

(** A run that answers from one module while another raises, then a run
    that raises while it saves: the first writes the two records, the
    second leaves the two partitions empty. *)
Example two_runs :
  runs Sample.no_text_dates [Sample.env_partial] Missing
  = _save_excel (Some (Sample.frame [Sample.H; Sample.other]))
                (Some (Sample.frame [Sample.H; Sample.other]))
  /\ runs Sample.no_text_dates [Sample.env_partial; Sample.env_fault] Missing
     = _save_excel (Some empty_frame) (Some empty_frame).
Proof. split; vm_compute; reflexivity. Qed.

End RunSpec.

(* ===================================================================== *)
(** * Properties of the pipeline as a whole *)
(* ===================================================================== *)

Module PipelineSpec.
Import Run.

(** The absent-date policy of [scraper.py]: an item without a date passes
    the seven-day window. *)
Lemma fresh_rows_absent now items (it : Scraper.Item) :
  it ∈ items -> Scraper.published it = None -> it ∈ Scraper.fresh_rows now items.
Proof.
  intros Hin Hp. unfold Scraper.fresh_rows. destruct items as [|x items]; [done|].
  apply DedupSpec.elem_of_List_filter. split; [done|]. by rewrite Hp.
Qed.

(** C4, as stated, fails: the two call sites do not agree.  A record
    without a date is left out of the window by [run.py] and passes the
    window of [scraper.py]. *)
Lemma absent_date_policy_counterexample :
  parsed_date Sample.no_text_dates (Sample.undated "A" "L") = None
  /\ _fresh_filter Sample.no_text_dates
       (Some (Sample.frame [Sample.undated "A" "L"])) WEEKLY_WINDOW Sample.T
     = Ok (Sample.frame [])
  /\ Scraper.published Sample.astoria_item = None
  /\ Scraper.fresh_rows Sample.T [Sample.astoria_item] = [Sample.astoria_item].
Proof. repeat split; vm_compute; reflexivity. Qed.

(** C4, amended.  In [run.py] every record whose date is absent or reads
    as no instant is left out of the windowed output, whatever the window;
    in [scraper.py] every item whose date is absent is in the windowed
    output: the two call sites handle the absent date in opposite ways. *)
Theorem absent_date_policy parse_utc :
  (forall df (r : Row) window_td utcnow,
     "date" ∈ columns df -> r ∈ rows df -> parsed_date parse_utc r = None ->
     exists out, _fresh_filter parse_utc (Some df) window_td utcnow = Ok out /\
                 delete "date_parsed" r ∉ rows out)
  /\
  (forall now items (it : Scraper.Item),
     it ∈ items -> Scraper.published it = None ->
     it ∈ Scraper.fresh_rows now items).
Proof.
  split.
  - intros df r window_td utcnow. apply WindowSpec.fresh_filter_absent.
  - apply fresh_rows_absent.
Qed.

(** C8. After every run of [run.py], whether [main] returned or raised,
    the workbook holds the two partitions [daily_log] and [weekly_rollup],
    each with the six columns in order, also when both are empty: this
    after any sequence of earlier runs, the first of which found no file or
    a file that does not open. *)
Theorem artifact_well_formed parse_utc envs env :
  well_formed (__main__ parse_utc env (runs parse_utc envs Missing)) /\
  well_formed (__main__ parse_utc env (runs parse_utc envs Unreadable)).
Proof.
  split; apply RunSpec.main_well_formed, RunSpec.runs_compatible;
    intros sheet df _ Hl; discriminate.
Qed.

(** C9. In [run.py] a module that raises during the fetch contributes
    nothing and stops nothing: the crawl holds the records of the modules
    that answered, and the run ends as the run in which the raising modules
    answer with no record; [main] returns and writes the workbook, which is
    well formed, and every fetched record whose date is in a window has a
    record of its (title, link) pair in the partition of that window.  In
    [scraper.py] a source whose parse raises leaves the ingestion as a source
    without items does, and every item of a source that answered, within its
    first 80, with a link not yet seen and passing the filter, has a row
    with its link among the kept rows. *)
Theorem partial_source_failure parse_utc env path
    BOROUGHS MUST_ANY fetch_page parse_rss parse_html_list SOURCES seen0 :
  fault env = None ->
  let crawled := (fetched (pincusco env) ++ fetched (yimby env)
                    ++ fetched (cityrealty env))%list in
  (crawl_all_safe (pincusco env) (yimby env) (cityrealty env)
   = from_records crawled COLS
   /\ __main__ parse_utc env path = __main__ parse_utc (contained_env env) path)
  /\ (exists daily weekly,
        main parse_utc env path = Ok (_save_excel (Some daily) (Some weekly))
        /\ (compatible path -> well_formed (_save_excel (Some daily) (Some weekly)))
        /\ (forall r, r ∈ crawled ->
              (in_window parse_utc (utcnow_daily env - DAILY_WINDOW) r = true ->
               exists r', r' ∈ rows daily /\ title_link r' = title_link r)
              /\
              (in_window parse_utc (utcnow_weekly env - WEEKLY_WINDOW) r = true ->
               exists r', r' ∈ rows weekly /\ title_link r' = title_link r)))
  /\ (Scraper.ingest BOROUGHS MUST_ANY fetch_page
        (Scraper.quiet parse_rss) (Scraper.quiet parse_html_list) SOURCES seen0
      = Scraper.ingest BOROUGHS MUST_ANY fetch_page parse_rss parse_html_list
          SOURCES seen0
      /\ (forall src items (it : Scraper.Item),
            (src ∈ Scraper.rss_sources SOURCES /\ parse_rss src = Returns items) \/
            (src ∈ Scraper.html_sources SOURCES /\ parse_html_list src = Returns items) ->
            it ∈ take 80 items -> Scraper.url it ∉ seen0 ->
            Scraper.keeps BOROUGHS MUST_ANY (Scraper.prepared fetch_page src it) = true ->
            exists r,
              r ∈ Scraper.rows (Scraper.ingest BOROUGHS MUST_ANY fetch_page parse_rss
                                  parse_html_list SOURCES seen0)
              /\ Scraper.url r = Scraper.url it)).
Proof.
  intros Hf crawled. split; [|split].
  - split; [apply RunSpec.crawl_all_safe_fetched|].
    unfold __main__. by rewrite RunSpec.main_contained.
  - destruct (RunSpec.main_ok parse_utc env path Hf)
      as (daily_df & weekly_df & daily_all & weekly_all
          & Hd & Hw & Hdc & Hwc & Hda & Hwa & Hmain).
    exists daily_all, weekly_all. split; [exact Hmain|]. split.
    + intros Hp. apply RunSpec.save_excel_well_formed.
      * eapply RunSpec.dedupe_columns; [exact Hdc| |exact Hda].
        intros old Hold. apply (Hp DAILY_SHEET); [by left | done].
      * eapply RunSpec.dedupe_columns; [exact Hwc| |exact Hwa].
        intros old Hold. apply (Hp WEEKLY_SHEET); [right; by left | done].
    + rewrite RunSpec.crawl_all_safe_fetched in Hd, Hw. fold crawled in Hd, Hw.
      intros r Hr. split; intros Hin.
      * exact (RunSpec.crawled_in_partition parse_utc crawled DAILY_WINDOW
                 (utcnow_daily env) _ daily_df daily_all r Hd Hda Hr Hin).
      * exact (RunSpec.crawled_in_partition parse_utc crawled WEEKLY_WINDOW
                 (utcnow_weekly env) _ weekly_df weekly_all r Hw Hwa Hr Hin).
  - split; [apply IngestSpec.ingest_quiet|].
    intros src items it Hsrc Hit Hnew Hkeep. by eapply IngestSpec.ingest_collects.
Qed.

Lemma partial_source_failure_witness :
  fault Sample.env_partial = None /\
  exists daily weekly,
    main Sample.no_text_dates Sample.env_partial Missing
    = Ok (_save_excel (Some daily) (Some weekly))
    /\ (exists r', r' ∈ rows weekly /\ title_link r' = title_link Sample.H)
    /\ (exists r, r ∈ Scraper.rows
                    (Scraper.ingest ["queens"] ["permits"] Sample.no_page
                       Sample.parse_feed Sample.parse_feed Sample.feeds ∅)
                  /\ Scraper.url r = Scraper.url Sample.astoria_item).
Proof.
  split; [reflexivity|].
  destruct (partial_source_failure Sample.no_text_dates Sample.env_partial Missing
              ["queens"] ["permits"] Sample.no_page Sample.parse_feed
              Sample.parse_feed Sample.feeds ∅ eq_refl)
    as [_ [[daily [weekly [Hmain [_ Hin]]]] [_ Hkept]]].
  exists daily, weekly. split; [exact Hmain|]. split.
  - apply (Hin Sample.H).
    + vm_compute. repeat constructor.
    + vm_compute. reflexivity.
  - apply (Hkept (Sample.feed "YIMBY Astoria") [Sample.astoria_item]).
    + left. split; [vm_compute; repeat constructor | reflexivity].
    + vm_compute. repeat constructor.
    + apply not_elem_of_empty.
    + vm_compute. reflexivity.
Defined.

End PipelineSpec.

(* ===================================================================== *)
(** * Properties of the text helpers of utils.py *)
(* ===================================================================== *)

Module TextProps.
Import Utils.

(** ** Stripping *)

Lemma rstrip_cons c t :
  rstrip (String c t) =
  match rstrip t with
  | EmptyString => if is_space c then EmptyString else String c EmptyString
  | t' => String c t'
  end.
Proof. reflexivity. Qed.

Lemma rstrip_idem s : rstrip (rstrip s) = rstrip s.
Proof.
  induction s as [|c t IH]; [done|].
  rewrite rstrip_cons. destruct (rstrip t) as [|c' t'] eqn:Ht.
  - destruct (is_space c) eqn:Hc; [done|]. rewrite rstrip_cons. simpl. by rewrite Hc.
  - rewrite rstrip_cons, IH. done.
Qed.

(** A string that [rstrip] leaves alone ends with its tail, which
    [rstrip] leaves alone too. *)
Lemma rstrip_fixed_cons c t :
  rstrip (String c t) = String c t ->
  (t = EmptyString /\ is_space c = false) \/
  (t <> EmptyString /\ rstrip t = t).
Proof.
  rewrite rstrip_cons. destruct (rstrip t) as [|c' t'] eqn:Ht.
  - destruct (is_space c); [discriminate|]. intros [= <-]. by left.
  - intros [= <-]. right. split; [discriminate | done].
Qed.

Lemma rstrip_head c t :
  is_space c = false -> exists t', rstrip (String c t) = String c t'.
Proof.
  intros Hc. rewrite rstrip_cons. destruct (rstrip t) as [|c' t'].
  - rewrite Hc. by eexists.
  - by eexists.
Qed.

Lemma lstrip_head s :
  lstrip s = EmptyString \/
  exists c t, lstrip s = String c t /\ is_space c = false.
Proof.
  induction s as [|c t IH]; [by left|]. simpl.
  destruct (is_space c) eqn:Hc; [exact IH|]. right. by exists c, t.
Qed.

(** What [strip] returns is empty or starts with a character that is not
    whitespace, and [rstrip] leaves it alone. *)
Lemma strip_shape s :
  rstrip (strip s) = strip s /\
  (strip s = EmptyString \/
   exists c t, strip s = String c t /\ is_space c = false).
Proof.
  unfold strip. split; [apply rstrip_idem|].
  destruct (lstrip_head s) as [->|(c & t & -> & Hc)]; [by left|].
  right. destruct (rstrip_head c t Hc) as [t' Ht']. by exists c, t'.
Qed.

(** ** Collapsing *)

Lemma collapse_tidy_from u :
  rstrip u = u -> u <> EmptyString ->
  forall b, tidy_from b (collapse b u) = true.
Proof.
  induction u as [|c t IH]; [done|]. intros Hfix _ b.
  apply rstrip_fixed_cons in Hfix as [[-> Hc]|[Hne Ht]].
  - simpl. rewrite Hc. simpl. by rewrite Hc.
  - simpl. destruct (is_space c) eqn:Hc.
    + destruct b; [by apply IH|].
      change (tidy_from true (collapse true t) = true). by apply IH.
    + simpl. rewrite Hc. by apply IH.
Qed.

Lemma tidy_from_weaken s : tidy_from true s = true -> tidy_from false s = true.
Proof.
  destruct s as [|c t]; [done|]. simpl. destruct (is_space c); [|done].
  rewrite andb_false_r. done.
Qed.

Lemma tidy_from_collapse b s : tidy_from b s = true -> collapse b s = s.
Proof.
  revert b. induction s as [|c t IH]; intros b; [done|]. simpl.
  destruct (is_space c) eqn:Hc.
  - intros [[Heq Hb%negb_true_iff]%andb_true_iff Ht]%andb_true_iff.
    apply bool_decide_eq_true in Heq. subst b c. by rewrite (IH true Ht).
  - intros Ht. by rewrite (IH false Ht).
Qed.

Lemma tidy_from_rstrip b s : tidy_from b s = true -> rstrip s = s.
Proof.
  revert b. induction s as [|c t IH]; intros b; [done|].
  rewrite rstrip_cons. cbn [tidy_from]. destruct (is_space c) eqn:Hc.
  - intros [_ Ht]%andb_true_iff. rewrite (IH true Ht).
    destruct t; [discriminate | done].
  - intros Ht. rewrite (IH false Ht). by destruct t.
Qed.

Lemma tidy_lstrip s : tidy s = true -> lstrip s = s.
Proof.
  destruct s as [|c t]; [done|]. simpl.
  destruct (is_space c); [|done]. rewrite andb_false_r. done.
Qed.

(** ** Visible characters *)

Lemma visible_lstrip s : visible (lstrip s) = visible s.
Proof.
  induction s as [|c t IH]; [done|]. cbn [lstrip visible].
  destruct (is_space c) eqn:Hc; [exact IH|]. cbn [visible]. by rewrite Hc.
Qed.

Lemma visible_rstrip s : visible (rstrip s) = visible s.
Proof.
  induction s as [|c t IH]; [done|]. rewrite rstrip_cons.
  cbn [visible]. rewrite <- IH.
  destruct (rstrip t) as [|c' t'] eqn:Ht.
  - destruct (is_space c) eqn:Hc; [done|]. cbn [visible]. by rewrite Hc.
  - reflexivity.
Qed.

Lemma visible_collapse b s : visible (collapse b s) = visible s.
Proof.
  revert b. induction s as [|c t IH]; intros b; [done|]. simpl.
  destruct (is_space c) eqn:Hc.
  - destruct b; [apply IH|]. simpl. apply IH.
  - simpl. by rewrite Hc, IH.
Qed.

Lemma tidy_from_only_spaces b s : tidy_from b s = true -> only_spaces s = true.
Proof.
  revert b. induction s as [|c t IH]; intros b; [done|]. simpl.
  destruct (is_space c) eqn:Hc.
  - intros [[Heq _]%andb_true_iff Ht]%andb_true_iff. rewrite Heq. simpl. by eapply IH.
  - intros Ht. simpl. by eapply IH.
Qed.

Lemma tidy_only_spaces s : tidy s = true -> only_spaces s = true.
Proof. destruct s; [done|]. apply tidy_from_only_spaces. Qed.

Lemma norm_text_tidy s : tidy (norm_text s) = true.
Proof.
  unfold norm_text.
  destruct (strip_shape (or_empty s)) as [Hfix [He|(c & t & Hs & Hc)]].
  - by rewrite He.
  - pose proof (collapse_tidy_from _ Hfix) as Ht. rewrite Hs in Ht |- *.
    assert (Hne : String c t <> EmptyString) by discriminate.
    specialize (Ht Hne false).
    cbn [collapse] in Ht |- *. rewrite Hc in Ht |- *.
    cbn [tidy tidy_from] in Ht |- *. by rewrite Hc in Ht |- *.
Qed.

Lemma tidy_norm_text t : tidy t = true -> norm_text (Some t) = t.
Proof.
  intros Ht. unfold norm_text, strip, or_empty. simpl.
  rewrite (tidy_lstrip t Ht).
  destruct t as [|c t']; [done|]. cbn [tidy] in Ht.
  rewrite (tidy_from_rstrip true _ Ht).
  by apply tidy_from_collapse, tidy_from_weaken.
Qed.

(** X1. Whatever it is given, [norm_text] returns a text whose whitespace
    is single spaces between other characters (none at either end, no two
    in a row, no tab or line break), with the characters that are not
    whitespace as they were and in their order; [None] gives the empty
    text. *)
Theorem norm_text_shape (s : option string) :
  tidy (norm_text s) = true
  /\ visible (norm_text s) = visible (or_empty s)
  /\ norm_text None = "".
Proof.
  split; [apply norm_text_tidy|]. split; [|done].
  unfold norm_text, strip.
  by rewrite visible_collapse, visible_rstrip, visible_lstrip.
Qed.

(** X2. The texts that [norm_text] returns unchanged are exactly the texts
    of that shape; so normalising twice is normalising once. *)
Theorem norm_text_fixed_points :
  (forall t, norm_text (Some t) = t <-> tidy t = true)
  /\ (forall s, norm_text (Some (norm_text s)) = norm_text s).
Proof.
  split.
  - intros t. split; [|apply tidy_norm_text].
    intros <-. apply norm_text_tidy.
  - intros s. apply tidy_norm_text, norm_text_tidy.
Qed.

(** ** Links *)

Lemma lower_empty s : lower s = EmptyString <-> s = EmptyString.
Proof. destruct s; simpl; split; congruence. Qed.

Lemma article_link_nonempty href :
  href <> EmptyString ->
  looks_like_article_link (Some href) =
  negb (existsb (fun b => String.prefix b (lower href))
          ["#"; "javascript:"; "mailto:"]).
Proof. by destruct href. Qed.

Lemma prefix_head a s1 s2 :
  String.prefix (String a s1) s2 = true -> exists t, s2 = String a t.
Proof.
  destruct s2 as [|b t]; simpl; [discriminate|].
  destruct (ascii_dec a b) as [<-|]; [by eexists | discriminate].
Qed.

Lemma prefix_one a t : String.prefix (String a EmptyString) (String a t) = true.
Proof. simpl. destruct (ascii_dec a a); [by destruct t | done]. Qed.

(** X3. [looks_like_article_link] judges a link by its lower-case form: it
    refuses the absent and the empty link, accepts every link that starts
    with "http" in any case, and accepts no link that starts with "#". *)
Theorem article_link_verdicts :
  looks_like_article_link None = false
  /\ looks_like_article_link (Some "") = false
  /\ (forall href, looks_like_article_link (Some (lower href))
                   = looks_like_article_link (Some href))
  /\ (forall href, String.prefix "http" (lower href) = true ->
                   looks_like_article_link (Some href) = true)
  /\ (forall href, looks_like_article_link (Some href) = true ->
                   href <> "" /\ String.prefix "#" href = false).
Proof.
  split; [done|]. split; [done|]. split; [|split].
  - intros href. destruct (decide (href = EmptyString)) as [->|Hne]; [done|].
    rewrite !article_link_nonempty, FilterSpec.lower_idem; [done..|].
    by rewrite lower_empty.
  - intros href Hp. destruct (prefix_head _ _ _ Hp) as [t Ht].
    rewrite article_link_nonempty, Ht; [reflexivity|].
    intros ->. discriminate.
  - intros href Hl. destruct href as [|c t]; [done|]. split; [done|].
    destruct (String.prefix "#" (String c t)) eqn:Hp; [|done].
    destruct (prefix_head _ _ _ Hp) as [t' [= -> ->]].
    rewrite article_link_nonempty in Hl by discriminate.
    assert (Hx : String.prefix "#" (lower (String "#" t')) = true)
      by apply (prefix_one "#" (lower t')).
    cbn [existsb] in Hl. rewrite Hx in Hl. discriminate Hl.
Qed.

End TextProps.

(* ===================================================================== *)
(** * Further properties of the keyword matching and of the filter *)
(* ===================================================================== *)

Module FilterProps.
Import Utils Scraper.

Lemma lower_app a b : lower (a ++ b) = lower a ++ lower b.
Proof. induction a as [|c a IH]; simpl; [done|]. by rewrite IH. Qed.

Lemma existsb_fmap {A B} (f : B -> bool) (g : A -> B) (l : list A) :
  existsb f (g <$> l) = existsb (fun x => f (g x)) l.
Proof.
  induction l as [|x l IH]; [done|].
  rewrite fmap_cons. cbn [existsb]. by rewrite IH.
Qed.

Lemma existsb_ext_in {A} (f g : A -> bool) (l : list A) :
  (forall x, x ∈ l -> f x = g x) -> existsb f l = existsb g l.
Proof.
  induction l as [|x l IH]; simpl; intros Hfg; [done|].
  rewrite Hfg by (by left). rewrite IH; [done|]. intros y Hy. apply Hfg. by right.
Qed.

Lemma contains_keywords_lower_words text words :
  contains_keywords text (lower <$> words) = contains_keywords text words.
Proof.
  unfold contains_keywords. rewrite existsb_fmap.
  apply existsb_ext_in. intros w _. by rewrite FilterSpec.lower_idem.
Qed.

Lemma contains_keywords_lower_text t words :
  contains_keywords (Some (lower t)) words = contains_keywords (Some t) words.
Proof. unfold contains_keywords, or_empty. simpl. by rewrite FilterSpec.lower_idem. Qed.

(** [contains_borough] is [contains_keywords] under another name. *)
Lemma contains_borough_lower_words text words :
  contains_borough text (lower <$> words) = contains_borough text words.
Proof. exact (contains_keywords_lower_words text words). Qed.

Lemma contains_borough_lower_text t words :
  contains_borough (Some (lower t)) words = contains_borough (Some t) words.
Proof. exact (contains_keywords_lower_text t words). Qed.

Lemma keeps_lower_words BOROUGHS MUST_ANY it :
  keeps (lower <$> BOROUGHS) (lower <$> MUST_ANY) it = keeps BOROUGHS MUST_ANY it.
Proof.
  unfold keeps.
  by rewrite contains_borough_lower_words, contains_keywords_lower_words.
Qed.

(** X4. Matching ignores case on both sides: a text and its lower-case
    form match the same keywords, a keyword list and its lower-case form
    match the same texts, and the relevance filter keeps the same items
    when both configured lists are put in lower case. *)
Theorem matching_ignores_case :
  (forall t words,
     contains_keywords (Some (lower t)) words = contains_keywords (Some t) words
     /\ contains_borough (Some (lower t)) words = contains_borough (Some t) words)
  /\ (forall text words,
        contains_keywords text (lower <$> words) = contains_keywords text words
        /\ contains_borough text (lower <$> words) = contains_borough text words)
  /\ (forall BOROUGHS MUST_ANY items,
        filter_items (lower <$> BOROUGHS) (lower <$> MUST_ANY) items
        = filter_items BOROUGHS MUST_ANY items).
Proof.
  split; [|split].
  - intros t words.
    split; [apply contains_keywords_lower_text | apply contains_borough_lower_text].
  - intros text words.
    split; [apply contains_keywords_lower_words | apply contains_borough_lower_words].
  - intros BOROUGHS MUST_ANY items. induction items as [|it items IH]; [done|].
    simpl. by rewrite keeps_lower_words, IH.
Qed.

Lemma str_in_empty t : str_in "" t = true.
Proof. by destruct t. Qed.

Lemma contains_keywords_empty_word text words :
  "" ∈ words -> contains_keywords text words = true.
Proof.
  intros Hin. unfold contains_keywords. apply existsb_exists.
  exists "". split; [by apply list_elem_of_In | apply str_in_empty].
Qed.

Lemma contains_borough_empty_word text words :
  "" ∈ words -> contains_borough text words = true.
Proof. exact (contains_keywords_empty_word text words). Qed.

(** X5. An empty string among the keywords matches every text: with an
    empty string in a list the match condition of that list is true for
    every record, and with one in both lists the filter keeps every item. *)
Theorem empty_keyword_matches_everything words :
  "" ∈ words ->
  (forall text, contains_keywords text words = true)
  /\ (forall text, contains_borough text words = true)
  /\ (forall BOROUGHS items, "" ∈ BOROUGHS ->
        filter_items BOROUGHS words items = items).
Proof.
  intros Hin. split; [|split].
  - intros text. by apply contains_keywords_empty_word.
  - intros text. by apply contains_borough_empty_word.
  - intros BOROUGHS items Hb. induction items as [|it items IH]; [done|].
    simpl. unfold keeps at 1.
    rewrite contains_borough_empty_word, contains_keywords_empty_word by done.
    simpl. destruct (is_yimby_queens_feed it); by rewrite IH.
Qed.

Lemma empty_keyword_matches_everything_witness :
  (forall text, contains_keywords text ["permits"; ""] = true)
  /\ filter_items [""] ["permits"; ""] [Sample.astoria_item; Sample.plain_item]
     = [Sample.astoria_item; Sample.plain_item].
Proof.
  destruct (empty_keyword_matches_everything ["permits"; ""]) as [Hk [_ Hf]].
  - apply elem_of_cons. right. apply elem_of_cons. by left.
  - split; [exact Hk|]. apply Hf. apply elem_of_cons. by left.
Defined.

(** ** The filter as a whole *)

Lemma filter_items_app BOROUGHS MUST_ANY a b :
  filter_items BOROUGHS MUST_ANY (a ++ b)
  = (filter_items BOROUGHS MUST_ANY a ++ filter_items BOROUGHS MUST_ANY b)%list.
Proof.
  induction a as [|it a IH]; simpl; [done|].
  destruct (keeps BOROUGHS MUST_ANY it); simpl; by rewrite IH.
Qed.

Lemma filter_items_sublist BOROUGHS MUST_ANY items :
  filter_items BOROUGHS MUST_ANY items `sublist_of` items.
Proof.
  induction items as [|it items IH]; simpl; [constructor|].
  destruct (keeps BOROUGHS MUST_ANY it); by constructor.
Qed.

(** X6. The filter treats every item on its own: it keeps the items in
    their order, filtering a concatenation is concatenating the filtered
    parts (so filtering item by item, as [main] does, keeps what filtering
    the batch keeps), and filtering twice is filtering once. *)
Theorem filter_items_itemwise BOROUGHS MUST_ANY :
  (forall items, filter_items BOROUGHS MUST_ANY items `sublist_of` items)
  /\ (forall a b,
        filter_items BOROUGHS MUST_ANY (a ++ b)
        = (filter_items BOROUGHS MUST_ANY a ++ filter_items BOROUGHS MUST_ANY b)%list)
  /\ (forall items,
        filter_items BOROUGHS MUST_ANY items
        = items ≫= (fun it => filter_items BOROUGHS MUST_ANY [it]))
  /\ (forall items,
        filter_items BOROUGHS MUST_ANY (filter_items BOROUGHS MUST_ANY items)
        = filter_items BOROUGHS MUST_ANY items).
Proof.
  split; [apply filter_items_sublist|]. split; [apply filter_items_app|]. split.
  - induction items as [|it items IH]; [done|].
    change (it :: items) with ([it] ++ items)%list at 1.
    rewrite filter_items_app, IH. reflexivity.
  - induction items as [|it items IH]; [done|]. simpl.
    destruct (keeps BOROUGHS MUST_ANY it) eqn:Hk; [|exact IH].
    simpl. by rewrite Hk, IH.
Qed.

Lemma contains_keywords_mono text words words' :
  (forall w, w ∈ words -> w ∈ words') ->
  contains_keywords text words = true -> contains_keywords text words' = true.
Proof.
  intros Hsub. unfold contains_keywords. rewrite !existsb_exists.
  intros [w [Hin Hw]]. exists w. split; [|done].
  by apply list_elem_of_In, Hsub, list_elem_of_In.
Qed.

Lemma contains_borough_mono text words words' :
  (forall w, w ∈ words -> w ∈ words') ->
  contains_borough text words = true -> contains_borough text words' = true.
Proof. exact (contains_keywords_mono text words words'). Qed.

Lemma keeps_mono BOROUGHS BOROUGHS' MUST_ANY MUST_ANY' it :
  (forall b, b ∈ BOROUGHS -> b ∈ BOROUGHS') ->
  (forall w, w ∈ MUST_ANY -> w ∈ MUST_ANY') ->
  keeps BOROUGHS MUST_ANY it = true -> keeps BOROUGHS' MUST_ANY' it = true.
Proof.
  intros Hb Hw. unfold keeps.
  destruct (is_yimby_queens_feed it).
  - by apply contains_keywords_mono.
  - intros [H1 H2]%andb_true_iff. apply andb_true_iff. split.
    + by eapply contains_borough_mono.
    + by eapply contains_keywords_mono.
Qed.

(** X7. Adding keywords never drops an item: when every borough and every
    topic keyword of one configuration is in a second one, every item that
    the filter keeps under the first is kept under the second. *)
Theorem filter_items_grows_with_keywords
    BOROUGHS BOROUGHS' MUST_ANY MUST_ANY' items :
  (forall b, b ∈ BOROUGHS -> b ∈ BOROUGHS') ->
  (forall w, w ∈ MUST_ANY -> w ∈ MUST_ANY') ->
  filter_items BOROUGHS MUST_ANY items
    `sublist_of` filter_items BOROUGHS' MUST_ANY' items.
Proof.
  intros Hb Hw. induction items as [|it items IH]; simpl; [constructor|].
  destruct (keeps BOROUGHS MUST_ANY it) eqn:Hk.
  - rewrite (keeps_mono _ _ _ _ _ Hb Hw Hk). by constructor.
  - destruct (keeps BOROUGHS' MUST_ANY' it); [by constructor | done].
Qed.

Lemma filter_items_grows_with_keywords_witness :
  filter_items ["queens"] ["permits"] [Sample.astoria_item; Sample.plain_item]
    `sublist_of`
  filter_items ["queens"; "tower"] ["rezoning"; "permits"]
    [Sample.astoria_item; Sample.plain_item].
Proof.
  apply (filter_items_grows_with_keywords ["queens"] ["queens"; "tower"]
           ["permits"] ["rezoning"; "permits"]).
  - intros b Hb. apply list_elem_of_singleton in Hb. subst b. by left.
  - intros w Hw. apply list_elem_of_singleton in Hw. subst w. right. by left.
Defined.

(** X8. Nothing is kept without a topic keyword, and outside the feeds
    that the relaxation names nothing is kept without a borough keyword
    either: every kept item has a configured topic keyword in its text,
    and it comes from a "yimby" feed whose name contains a hint or has a
    configured borough keyword in its text. *)
Theorem kept_items_match BOROUGHS MUST_ANY items it :
  it ∈ filter_items BOROUGHS MUST_ANY items ->
  it ∈ items
  /\ (exists w, w ∈ MUST_ANY /\ str_in (lower w) (text_blob it) = true)
  /\ (is_yimby_queens_feed it = true
      \/ exists b, b ∈ BOROUGHS /\ str_in (lower b) (text_blob it) = true).
Proof.
  intros [Hin Hk]%FilterSpec.filter_items_elem. split; [done|].
  unfold keeps in Hk. destruct (is_yimby_queens_feed it).
  - split; [by apply FilterSpec.contains_keywords_blob | by left].
  - apply andb_true_iff in Hk as [Hb Hw]. split.
    + by apply FilterSpec.contains_keywords_blob.
    + right. by apply FilterSpec.contains_borough_blob.
Qed.

Lemma kept_items_match_witness :
  Sample.astoria_item ∈ [Sample.astoria_item; Sample.plain_item]
  /\ (exists w, w ∈ ["permits"]
                /\ str_in (lower w) (text_blob Sample.astoria_item) = true)
  /\ (is_yimby_queens_feed Sample.astoria_item = true
      \/ exists b, b ∈ ["queens"]
                   /\ str_in (lower b) (text_blob Sample.astoria_item) = true).
Proof.
  apply (kept_items_match ["queens"] ["permits"]
           [Sample.astoria_item; Sample.plain_item] Sample.astoria_item).
  vm_compute. by left.
Defined.

End FilterProps.

(* ===================================================================== *)
(** * Properties of what is made of a feed and of a page *)
(* ===================================================================== *)

Module FeedsProps.
Import Utils Feeds.

Lemma entry_date_given parser e :
  entry_date parser e <> None -> given (py_or (e_published e) (e_updated e)) = true.
Proof.
  unfold entry_date, py_or. destruct (given (e_published e)) eqn:Hp; [done|].
  destruct (given (e_updated e)) eqn:Hu; [done|]. intros H. by destruct H.
Qed.

(** X9. [parse_rss] yields one item per entry, in the order of the feed
    and with the link of the entry; the title and the summary of an item
    are never absent and are normalised texts; its source, feed name and
    preview are not set yet; and an item has a parsed date only if it has
    a raw date text. *)
Theorem parse_rss_items parser entries :
  Scraper.url <$> parse_rss parser entries = e_link <$> entries
  /\ forall it, it ∈ parse_rss parser entries ->
       (exists t, Scraper.title it = Some t /\ tidy t = true)
       /\ (exists s, Scraper.summary it = Some s /\ tidy s = true)
       /\ Scraper.source it = None /\ Scraper.feed_name it = None
       /\ Scraper.content_preview it = None
       /\ (Scraper.published it <> None -> given (Scraper.raw_date it) = true).
Proof.
  split.
  - unfold parse_rss. rewrite <- list_fmap_compose. done.
  - intros it [e [-> _]]%list_elem_of_fmap. simpl.
    split; [eexists; split; [done | apply TextProps.norm_text_tidy]|].
    split; [eexists; split; [done | apply TextProps.norm_text_tidy]|].
    repeat (split; [done|]). apply entry_date_given.
Qed.

(** ** The preview *)

Lemma length_substring_0 m s : (String.length (String.substring 0 m s) <= m)%nat.
Proof.
  revert s. induction m as [|m IH]; intros s.
  - destruct s; simpl; lia.
  - destruct s as [|c s]; simpl; [lia|]. specialize (IH s). lia.
Qed.

Lemma only_spaces_substring_0 m s :
  only_spaces s = true -> only_spaces (String.substring 0 m s) = true.
Proof.
  revert s. induction m as [|m IH]; intros s; [by destruct s|].
  destruct s as [|c s]; [done|]. simpl.
  intros [Hc Hs]%andb_true_iff. rewrite Hc. simpl. by apply IH.
Qed.

Lemma only_spaces_app a b :
  only_spaces a = true -> only_spaces b = true -> only_spaces (a ++ b) = true.
Proof.
  intros Ha Hb. induction a as [|c a IH]; [done|]. simpl in *.
  apply andb_true_iff in Ha as [Hc Ha]. rewrite Hc. simpl. by apply IH.
Qed.

Lemma only_spaces_concat l :
  (forall t, t ∈ l -> only_spaces t = true) ->
  only_spaces (String.concat " " l) = true.
Proof.
  induction l as [|t l IH]; intros Hl; [done|].
  assert (Ht : only_spaces t = true) by (apply Hl; by left).
  assert (Hl' : forall t', t' ∈ l -> only_spaces t' = true)
    by (intros t' Ht'; apply Hl; by right).
  destruct l as [|t2 l]; [done|].
  change (only_spaces (t ++ " " ++ String.concat " " (t2 :: l)) = true).
  apply only_spaces_app; [done|]. apply only_spaces_app; [done|]. by apply IH.
Qed.

(** X10. The preview that [enrich_article] keeps has at most 1200
    characters, and its whitespace is spaces only: no line break and no
    tab of the page gets into it. *)
Theorem content_preview_bounded texts :
  (String.length (content_preview_of texts) <= 1200)%nat
  /\ only_spaces (content_preview_of texts) = true.
Proof.
  unfold content_preview_of. split; [apply length_substring_0|].
  apply only_spaces_substring_0, only_spaces_concat.
  intros t [x [-> _]]%list_elem_of_fmap.
  apply TextProps.tidy_only_spaces, TextProps.norm_text_tidy.
Qed.

End FeedsProps.

(* ===================================================================== *)
(** * Properties of the seen-set file *)
(* ===================================================================== *)

Module SeenProps.
Import Scraper.

Lemma str_le_total : Total str_le.
Proof. intros a b. apply String.leb_total. Qed.

Lemma load_seen_fold lines (acc : gset string) u :
  u ∈ foldl (fun seen row => match row with
                             | [] => seen
                             | u :: _ => {[ u ]} ∪ seen
                             end) acc lines
  <-> u ∈ acc \/ exists rest, (u :: rest) ∈ lines.
Proof.
  revert acc. induction lines as [|row lines IH]; intros acc; simpl.
  - split; [by left|]. intros [H|[rest H]]; [done | inversion H].
  - rewrite IH. destruct row as [|v rest]; split.
    + intros [H|[r H]]; [by left|]. right. exists r. by right.
    + intros [H|[r H]]; [by left|]. right. exists r.
      apply elem_of_cons in H as [H|H]; [discriminate | done].
    + intros [[->%elem_of_singleton|H]%elem_of_union|[r H]].
      * right. exists rest. by left.
      * by left.
      * right. exists r. by right.
    + intros [H|[r H]]; [left; set_solver|].
      apply elem_of_cons in H as [[= -> ->]|H]; [left; set_solver|].
      right. by exists r.
Qed.

(** X11. The file that [save_seen] writes lists the links of the set in
    order, each once; [load_seen] reads the same set back from it, and
    saving what was read writes the same file again. *)
Theorem save_seen_file (s : gset string) :
  Sorted str_le (sorted s)
  /\ NoDup (sorted s)
  /\ (forall u, u ∈ sorted s <-> u ∈ s)
  /\ load_seen (save_seen s) = s
  /\ save_seen (load_seen (save_seen s)) = save_seen s.
Proof.
  split; [apply (@Sorted_merge_sort _ str_le _ str_le_total)|].
  split; [unfold sorted; rewrite merge_sort_Permutation; apply NoDup_elements|].
  split; [apply IngestSpec.sorted_elements|].
  split; [apply IngestSpec.load_save_seen|].
  by rewrite IngestSpec.load_save_seen.
Qed.

(** X12. [load_seen] reads the first field of every row that has one: a
    link is in the set exactly when it starts a row of the file, whatever
    the order of the rows, their repetitions, the empty rows and the other
    fields; a file that is not there gives the empty set. *)
Theorem load_seen_rows_read :
  load_seen None = ∅
  /\ (forall lines u,
        u ∈ load_seen (Some lines) <-> exists rest, (u :: rest) ∈ lines)
  /\ (forall a b : list (list string),
        load_seen (Some (a ++ b)%list) = load_seen (Some a) ∪ load_seen (Some b)).
Proof.
  split; [done|].
  assert (Hmem : forall lines u,
            u ∈ load_seen (Some lines) <-> exists rest, (u :: rest) ∈ lines).
  { intros lines u. unfold load_seen. rewrite load_seen_fold.
    split; [intros [H|H]; [by apply not_elem_of_empty in H | done] | by right]. }
  split; [exact Hmem|].
  intros a b. apply set_eq. intros u. rewrite elem_of_union, !Hmem.
  setoid_rewrite elem_of_app. naive_solver.
Qed.

End SeenProps.

(* ===================================================================== *)
(** * Further properties of the ingestion loops *)
(* ===================================================================== *)

Module IngestProps.
Import Utils Scraper.

Lemma foldl_invariant {A B} (f : A -> B -> A) (P : A -> Prop) (l : list B) :
  (forall a x, x ∈ l -> P a -> P (f a x)) ->
  forall a, P a -> P (foldl f a l).
Proof.
  induction l as [|x l IH]; intros Hstep a Ha; simpl; [done|].
  apply IH.
  - intros a' y Hy. apply Hstep. by right.
  - apply Hstep; [by left | done].
Qed.

Section Loops.
Variables BOROUGHS MUST_ANY : list string.
Variable fetch_page : string -> option string.
Variables parse_rss parse_html_list : Src -> outcome (list Item).
Variable SOURCES : Sources.

Abbreviation keeps := (keeps BOROUGHS MUST_ANY).
Abbreviation process_item := (process_item BOROUGHS MUST_ANY fetch_page).
Abbreviation process_source := (process_source BOROUGHS MUST_ANY fetch_page).
Abbreviation prepared := (prepared fetch_page).
Abbreviation ingest :=
  (ingest BOROUGHS MUST_ANY fetch_page parse_rss parse_html_list SOURCES).
Abbreviation fetched src items :=
  ((src ∈ rss_sources SOURCES /\ parse_rss src = Returns items) \/
   (src ∈ html_sources SOURCES /\ parse_html_list src = Returns items)).

(** What holds at the start and is kept by the loop body, on every item
    that a source yields within its first 80, holds at the end. *)
Lemma ingest_ind (P : State -> Prop) seen0 :
  P (mkState seen0 [] []) ->
  (forall src items it st,
     fetched src items -> it ∈ take 80 items -> P st -> P (process_item src st it)) ->
  P (ingest seen0).
Proof.
  intros Hinit Hstep. unfold Scraper.ingest.
  apply foldl_invariant.
  - intros st src Hsrc Hst. unfold Scraper.process_source.
    destruct (parse_html_list src) as [|items] eqn:Hp; [done|].
    apply foldl_invariant; [|done].
    intros st' it Hit Hst'. apply (Hstep src items); auto.
  - apply foldl_invariant; [|done].
    intros st src Hsrc Hst. unfold Scraper.process_source.
    destruct (parse_rss src) as [|items] eqn:Hp; [done|].
    apply foldl_invariant; [|done].
    intros st' it Hit Hst'. apply (Hstep src items); auto.
Qed.

(** X13. The seen set gates the work: no item whose link was in the
    loaded set is enriched or filtered, none is kept, no link is kept
    twice in a run, and the set only grows. *)
Theorem seen_links_are_skipped seen0 :
  let st := ingest seen0 in
  (forall it, it ∈ processed st -> url it ∉ seen0)
  /\ (forall r, r ∈ rows st -> url r ∉ seen0)
  /\ NoDup (url <$> rows st)
  /\ seen0 ⊆ seen st.
Proof.
  intros st.
  assert (H : (forall it, it ∈ processed st -> url it ∉ seen0)
              /\ NoDup (url <$> rows st)
              /\ seen st = seen0 ∪ list_to_set (url <$> rows st)).
  { unfold st. apply ingest_ind.
    - simpl. split; [intros it Hit; inversion Hit|]. split; [constructor | set_solver].
    - intros src items it st' _ _ (Hproc & Hnd & Hseen).
      destruct (decide (url it ∈ seen st')) as [Hin|Hin].
      { by rewrite IngestSpec.process_item_seen. }
      assert (Hnew : url it ∉ seen0) by (rewrite Hseen in Hin; set_solver).
      assert (Hlog : forall x, x ∈ (processed st' ++ [prepared src it])%list ->
                               url x ∉ seen0).
      { intros x [Hx | ->%list_elem_of_singleton]%elem_of_app; [by apply Hproc | done]. }
      destruct (keeps (prepared src it)) eqn:Hk.
      + rewrite IngestSpec.process_item_kept by done. simpl.
        split; [exact Hlog|]. split.
        * rewrite fmap_app. apply NoDup_app. split; [done|]. split.
          -- intros u Hu Hu'. apply list_elem_of_singleton in Hu'. subst u.
             apply Hin. rewrite Hseen. apply elem_of_union. right.
             by apply elem_of_list_to_set.
          -- apply NoDup_singleton.
        * rewrite Hseen, fmap_app, list_to_set_app_L. simpl. set_solver.
      + rewrite IngestSpec.process_item_rejected by done. simpl. auto. }
  destruct H as (Hproc & Hnd & Hseen).
  split; [exact Hproc|]. split; [|split; [exact Hnd|]].
  - intros r Hr. apply Hproc.
    destruct (IngestSpec.ingest_inv BOROUGHS MUST_ANY fetch_page parse_rss
                parse_html_list SOURCES seen0) as [_ _ Hrows].
    by apply Hrows.
  - rewrite Hseen. set_solver.
Qed.

(** ** Bounds *)

Lemma processed_process_item_length src st it :
  (List.length (processed (process_item src st it))
   <= S (List.length (processed st)))%nat.
Proof.
  unfold Scraper.process_item. repeat case_match; simpl;
    rewrite ?length_app; simpl; lia.
Qed.

Lemma processed_items_length src items st :
  (List.length (processed (foldl (process_item src) st items))
   <= List.length (processed st) + List.length items)%nat.
Proof.
  revert st. induction items as [|it items IH]; intros st; simpl; [lia|].
  specialize (IH (process_item src st it)).
  pose proof (processed_process_item_length src st it). lia.
Qed.

Lemma processed_source_length parse st src :
  (List.length (processed (process_source parse st src))
   <= List.length (processed st) + 80)%nat.
Proof.
  unfold Scraper.process_source. destruct (parse src) as [|items]; [lia|].
  pose proof (processed_items_length src (take 80 items) st) as H.
  rewrite length_take in H. lia.
Qed.

Lemma processed_sources_length parse srcs st :
  (List.length (processed (foldl (process_source parse) st srcs))
   <= List.length (processed st) + 80 * List.length srcs)%nat.
Proof.
  revert st. induction srcs as [|src srcs IH]; intros st; simpl; [lia|].
  specialize (IH (process_source parse st src)).
  pose proof (processed_source_length parse st src). lia.
Qed.

(** X14. A run enriches and filters at most 80 items of each configured
    source, and keeps no more rows than it has enriched. *)
Theorem ingest_bounded seen0 :
  let st := ingest seen0 in
  (List.length (rows st) <= List.length (processed st))%nat
  /\ (List.length (processed st)
      <= 80 * (List.length (rss_sources SOURCES)
               + List.length (html_sources SOURCES)))%nat.
Proof.
  intros st. split.
  - unfold st. apply ingest_ind; [done|].
    intros src items it st' _ _ Hle. unfold Scraper.process_item.
    repeat case_match; simpl; rewrite ?length_app; simpl; lia.
  - unfold st, Scraper.ingest.
    pose proof (processed_sources_length parse_html_list (html_sources SOURCES)
                  (foldl (process_source parse_rss) (mkState seen0 [] [])
                     (rss_sources SOURCES))) as H1.
    pose proof (processed_sources_length parse_rss (rss_sources SOURCES)
                  (mkState seen0 [] [])) as H2.
    simpl in H2. lia.
Qed.

(** X15. Every kept row carries the source and the name of a configured
    source, and as its preview what the page of its own link gave. *)
Theorem kept_rows_are_labelled seen0 :
  forall r, r ∈ rows (ingest seen0) ->
    (exists src, (src ∈ rss_sources SOURCES \/ src ∈ html_sources SOURCES)
                 /\ source r = Some (src_source src)
                 /\ feed_name r = Some (src_name src))
    /\ content_preview r = fetch_page (url r).
Proof.
  apply (ingest_ind
           (fun st => forall r, r ∈ rows st ->
              (exists src, (src ∈ rss_sources SOURCES \/ src ∈ html_sources SOURCES)
                           /\ source r = Some (src_source src)
                           /\ feed_name r = Some (src_name src))
              /\ content_preview r = fetch_page (url r))).
  - intros r Hr. inversion Hr.
  - intros src items it st Hf _ Hst.
    destruct (decide (url it ∈ seen st)) as [Hin|Hin].
    { by rewrite IngestSpec.process_item_seen. }
    destruct (keeps (prepared src it)) eqn:Hk.
    + rewrite IngestSpec.process_item_kept by done. simpl.
      intros r [Hr | ->%list_elem_of_singleton]%elem_of_app; [by apply Hst|].
      split; [|done]. exists src. split; [|done]. tauto.
    + by rewrite IngestSpec.process_item_rejected.
Qed.

(** ** Running again *)

(** At the end of a run every fetched item has its link in the seen set
    or is rejected by the filter. *)
Lemma fetched_seen_or_rejected seen0 src items it :
  fetched src items -> it ∈ take 80 items ->
  url it ∈ seen (ingest seen0) \/ keeps (prepared src it) = false.
Proof.
  intros Hf Hit.
  destruct (IngestSpec.ingest_inv BOROUGHS MUST_ANY fetch_page parse_rss
              parse_html_list SOURCES seen0) as [Hseen _ _].
  assert (Q : (exists r, r ∈ rows (ingest seen0) /\ url r = url it)
              \/ url it ∈ seen0 \/ keeps (prepared src it) = false).
  { apply (IngestSpec.ingest_reach BOROUGHS MUST_ANY fetch_page seen0 src it
             (fun st => (exists r, r ∈ rows st /\ url r = url it)
                        \/ url it ∈ seen0 \/ keeps (prepared src it) = false))
      with (items := items); [| |done..].
    - intros st st' [Hsub _] [[r [Hr Hu]]|H]; [|by right].
      left. exists r. split; [by apply Hsub | done].
    - intros st [Hs _ _].
      destruct (decide (url it ∈ seen st)) as [Hin|Hin].
      + rewrite IngestSpec.process_item_seen by done.
        rewrite Hs in Hin. apply elem_of_union in Hin as [Hin|Hin]; [tauto|].
        apply elem_of_list_to_set, list_elem_of_fmap in Hin as [r [Hu Hr]].
        left. by exists r.
      + destruct (keeps (prepared src it)) eqn:Hk; [|tauto].
        rewrite IngestSpec.process_item_kept by done. simpl. left.
        exists (prepared src it). split; [|done]. apply elem_of_app. right. by left. }
  destruct Q as [[r [Hr Hu]]|[Hin|Hk]]; [| |by right].
  - left. rewrite Hseen. apply elem_of_union. right.
    apply elem_of_list_to_set. rewrite <- Hu. by apply list_elem_of_fmap_2.
  - left. rewrite Hseen. set_solver.
Qed.

(** A run in which every fetched item is seen or rejected keeps nothing
    and leaves the seen set as it found it. *)
Lemma ingest_nothing_new seen1 :
  (forall src items it, fetched src items -> it ∈ take 80 items ->
     url it ∈ seen1 \/ keeps (prepared src it) = false) ->
  rows (ingest seen1) = [] /\ seen (ingest seen1) = seen1.
Proof.
  intros Hall.
  apply (ingest_ind (fun st => rows st = [] /\ seen st = seen1)); [done|].
  intros src items it st Hf Hit [Hr Hs].
  destruct (decide (url it ∈ seen st)) as [Hin|Hin].
  { by rewrite IngestSpec.process_item_seen. }
  destruct (Hall src items it Hf Hit) as [Hseen|Hk]; [by rewrite Hs in Hin|].
  by rewrite IngestSpec.process_item_rejected.
Qed.

(** X16. Running again on the same answers of the network changes
    nothing: a second run that starts from the file the first one saved,
    with the sources and the pages answering as before, keeps no row, sends
    no row to the workbook and saves the same seen-set file. *)
Theorem rerun_keeps_nothing now now' (file : SeenFile) :
  let first := main BOROUGHS MUST_ANY fetch_page parse_rss parse_html_list
                    SOURCES now file in
  let second := main BOROUGHS MUST_ANY fetch_page parse_rss parse_html_list
                     SOURCES now' first.2 in
  rows (ingest (load_seen first.2)) = []
  /\ second.1 = []
  /\ second.2 = first.2.
Proof.
  intros first second.
  assert (Hload : load_seen first.2 = seen (ingest (load_seen file))).
  { unfold first, main. cbn [snd]. apply IngestSpec.load_save_seen. }
  destruct (ingest_nothing_new (seen (ingest (load_seen file)))) as [Hr Hs].
  { intros src items it Hf Hit. by apply (fetched_seen_or_rejected _ src items). }
  unfold second, main. cbn [fst snd]. rewrite Hload, Hr, Hs. done.
Qed.

End Loops.

(** ** The seven-day window *)

Lemma fresh_earlier now now' d :
  now <= now' -> fresh now' d = true -> fresh now d = true.
Proof.
  intros Hle. destruct d as [[w a]|]; [|done]. simpl.
  destruct a; [done|]. rewrite !bool_decide_eq_true. lia.
Qed.

(** X17. The window of [scraper.py] only loses items as time passes: an
    item that passes it at one time passes it at every earlier time; the
    items that pass keep their order; and an item without a date, or with
    a date that carries a time zone, passes at every time. *)
Theorem fresh_rows_over_time now now' items :
  now <= now' ->
  fresh_rows now' items `sublist_of` fresh_rows now items
  /\ fresh_rows now items `sublist_of` items
  /\ (forall it, it ∈ items ->
        published it = None \/ (exists d, published it = Some d /\ aware d = true) ->
        it ∈ fresh_rows now' items).
Proof.
  intros Hle.
  assert (Hf : forall t l, fresh_rows t l
                 = List.filter (fun it => fresh t (published it)) l)
    by (intros t l; by destruct l).
  rewrite !Hf. split; [|split].
  - induction items as [|it items IH]; simpl; [constructor|].
    destruct (fresh now' (published it)) eqn:H'.
    + rewrite (fresh_earlier now now' _ Hle H'). by constructor.
    + destruct (fresh now (published it)); [by constructor | done].
  - induction items as [|it items IH]; simpl; [constructor|].
    destruct (fresh now (published it)); by constructor.
  - intros it Hin Hd. apply DedupSpec.elem_of_List_filter. split; [done|].
    destruct Hd as [->|[d [-> Ha]]]; [done|]. simpl. by rewrite Ha.
Qed.

Lemma kept_rows_are_labelled_witness :
  (exists src, (src ∈ Scraper.rss_sources Sample.feeds
                \/ src ∈ Scraper.html_sources Sample.feeds)
               /\ Scraper.source Sample.astoria_item = Some (Scraper.src_source src)
               /\ Scraper.feed_name Sample.astoria_item = Some (Scraper.src_name src))
  /\ Scraper.content_preview Sample.astoria_item
     = Sample.no_page (Scraper.url Sample.astoria_item).
Proof.
  apply (kept_rows_are_labelled ["queens"] ["permits"] Sample.no_page
           Sample.parse_feed Sample.parse_feed Sample.feeds ∅ Sample.astoria_item).
  vm_compute. repeat constructor.
Defined.

Lemma fresh_rows_over_time_witness :
  fresh_rows (Sample.T + days 30) [Sample.astoria_item; Sample.dated_item]
    `sublist_of` fresh_rows Sample.T [Sample.astoria_item; Sample.dated_item]
  /\ fresh_rows Sample.T [Sample.astoria_item; Sample.dated_item]
     = [Sample.astoria_item; Sample.dated_item]
  /\ fresh_rows (Sample.T + days 30) [Sample.astoria_item; Sample.dated_item]
     = [Sample.astoria_item].
Proof.
  destruct (fresh_rows_over_time Sample.T (Sample.T + days 30)
              [Sample.astoria_item; Sample.dated_item]) as [Hsub _].
  - vm_compute. discriminate.
  - split; [exact Hsub|]. split; vm_compute; reflexivity.
Defined.

End IngestProps.

(* ===================================================================== *)
(** * Further properties of the frames of run.py *)
(* ===================================================================== *)

Module FrameProps.
Import Run.

Lemma sublist_fmap {A B} (f : A -> B) (l k : list A) :
  l `sublist_of` k -> f <$> l `sublist_of` f <$> k.
Proof. induction 1; simpl; by constructor. Qed.

Lemma List_filter_sublist {A} (f g : A -> bool) (l : list A) :
  (forall x, f x = true -> g x = true) ->
  List.filter f l `sublist_of` List.filter g l.
Proof.
  intros Hfg. induction l as [|x l IH]; simpl; [constructor|].
  destruct (f x) eqn:Hf.
  - rewrite (Hfg x Hf). by constructor.
  - destruct (g x); [by constructor | done].
Qed.

Lemma List_filter_nil {A} (f : A -> bool) (l : list A) :
  (forall x, x ∈ l -> f x = false) -> List.filter f l = [].
Proof.
  induction l as [|x l IH]; intros Hl; simpl; [done|].
  rewrite Hl by (by left). apply IH. intros y Hy. apply Hl. by right.
Qed.

(** ** The fixed columns *)

Lemma project_outside cols (r : Row) c : c ∉ cols -> project cols r !! c = None.
Proof.
  intros Hc. unfold project. apply map_lookup_filter_None. right.
  intros v _ Hin. by apply Hc.
Qed.

(** After the loop of [_ensure_cols] over [cs], every column of [cs] is a
    column, the columns the frame had are columns still, and the rows are
    the rows of the frame with the cells of the added columns empty. *)
Lemma ensure_loop df cs :
  let df' := foldl (fun df c =>
                      if bool_decide (c ∈ columns df) then df
                      else assign c (fun _ => None) df) df cs in
  (forall c, c ∈ cs -> c ∈ columns df')
  /\ (forall c, c ∈ columns df -> c ∈ columns df')
  /\ exists f : Row -> Row,
       rows df' = f <$> rows df
       /\ forall r c, f r !! c =
            if bool_decide (c ∈ columns df' /\ c ∉ columns df) then None else r !! c.
Proof.
  induction cs as [|c cs IH] using rev_ind; simpl.
  - split; [intros c Hc; inversion Hc|]. split; [done|].
    exists id. split; [by rewrite list_fmap_id|].
    intros r c. rewrite bool_decide_eq_false_2; [done | tauto].
  - rewrite foldl_app. simpl. simpl in IH.
    set (dfk := foldl _ df cs) in *.
    destruct IH as (Hcs & Hold & f & Hrows & Hf).
    case_bool_decide as Hc.
    + split; [|split; [done|by exists f]].
      intros c' [Hc' | ->%list_elem_of_singleton]%elem_of_app; auto.
    + unfold assign. simpl. rewrite bool_decide_eq_false_2 by done.
      split; [|split].
      * intros c' [Hc' | ->%list_elem_of_singleton]%elem_of_app;
          apply elem_of_app; [left; auto | right; by left].
      * intros c' Hc'. apply elem_of_app. left. auto.
      * exists (fun r => delete c (f r)). split.
        { rewrite Hrows, <- list_fmap_compose. done. }
        intros r c'. destruct (decide (c' = c)) as [->|Hne].
        -- rewrite lookup_delete_eq. rewrite bool_decide_eq_true_2; [done|].
           split; [apply elem_of_app; right; by left|]. intros Hin. by apply Hc, Hold.
        -- rewrite lookup_delete_ne by done. rewrite Hf.
           rewrite (bool_decide_ext (c' ∈ columns dfk /\ c' ∉ columns df)
                      (c' ∈ (columns dfk ++ [c])%list /\ c' ∉ columns df)); [done|].
           rewrite elem_of_app, list_elem_of_singleton. tauto.
Qed.

(** X18. [_ensure_cols] always returns a frame with exactly the six
    columns, in order, and as many rows as it was given: a cell of one of
    the six columns is the cell the frame had there, and is empty when the
    frame had no such column; every other cell is dropped.  [None] gives
    the empty frame, and applying it twice is applying it once. *)
Theorem ensure_cols_shape :
  _ensure_cols None = empty_frame
  /\ (forall df, columns (_ensure_cols df) = COLS)
  /\ (forall df, exists f : Row -> Row,
        rows (_ensure_cols (Some df)) = f <$> rows df
        /\ forall r c, f r !! c =
             if bool_decide (c ∈ COLS /\ c ∈ columns df) then r !! c else None)
  /\ (forall df, _ensure_cols (Some (_ensure_cols df)) = _ensure_cols df).
Proof.
  split; [done|]. split; [by intros [df|]|]. split.
  - intros df. unfold _ensure_cols.
    destruct (ensure_loop df COLS) as (Hcs & Hold & f & Hrows & Hf).
    exists (fun r => project COLS (f r)). split.
    + unfold select. cbn [rows]. rewrite Hrows, <- list_fmap_compose. done.
    + intros r c. case_bool_decide as Hc.
      * destruct Hc as [Hc Hdf]. rewrite RunSpec.project_lookup by done.
        rewrite Hf. rewrite bool_decide_eq_false_2; [done | tauto].
      * destruct (decide (c ∈ COLS)) as [Hin|Hout].
        -- rewrite RunSpec.project_lookup by done. rewrite Hf.
           rewrite bool_decide_eq_true_2; [done|]. split; [by apply Hcs | tauto].
        -- by apply project_outside.
  - intros df. rewrite RunSpec.ensure_cols_canonical by (by destruct df).
    destruct df as [df|]; [|done]. unfold _ensure_cols, select. cbn [rows columns].
    f_equal. rewrite <- list_fmap_compose. apply list_fmap_ext. intros _ r _.
    apply RunSpec.project_idem.
Qed.

End FrameProps.

(* ===================================================================== *)
(** * Further properties of the window filter of run.py *)
(* ===================================================================== *)

Module WindowProps.
Import Run.

Section Window.
Variable parse_utc : string -> option Z.

Abbreviation _fresh_filter := (_fresh_filter parse_utc).
Abbreviation parsed_date := (parsed_date parse_utc).
Abbreviation in_window := (in_window parse_utc).

Lemma List_filter_sublist_self {A} (f : A -> bool) (l : list A) :
  List.filter f l `sublist_of` l.
Proof.
  induction l as [|x l IH]; simpl; [constructor|].
  destruct (f x); by constructor.
Qed.

(** What the filter returns, case by case. *)
Lemma fresh_filter_cases df window_td utcnow :
  (empty df = true /\ _fresh_filter (Some df) window_td utcnow = Ok empty_frame)
  \/ (empty df = false /\ ("date" ∉ columns df)
      /\ _fresh_filter (Some df) window_td utcnow = Raise (KeyError "date"))
  \/ (empty df = false /\ "date" ∈ columns df
      /\ _fresh_filter (Some df) window_td utcnow =
         Ok (mkDataFrame
               (List.filter (fun c' => negb (bool_decide (c' = "date_parsed")))
                            (columns df))
               (delete "date_parsed" <$>
                  List.filter (in_window (utcnow - window_td)) (rows df)))).
Proof.
  destruct (empty df) eqn:He.
  - left. split; [done|]. unfold Run._fresh_filter. by rewrite He.
  - right. destruct (decide ("date" ∈ columns df)) as [Hd|Hd].
    + right. split; [done|]. split; [done|]. by apply WindowSpec.fresh_filter_frame.
    + left. split; [done|]. split; [done|]. unfold Run._fresh_filter.
      by rewrite He, bool_decide_eq_false_2.
Qed.

(** X19. The edges of [_fresh_filter]: without a frame, or with a frame
    that has no row, it returns the empty frame with the six columns,
    whatever columns the frame had; with rows and no [date] column it
    raises [KeyError]; and when it returns, the result has no
    [date_parsed] column and no such cell, no more rows than the frame, and
    every other column of a frame with rows. *)
Theorem fresh_filter_edges window_td utcnow :
  _fresh_filter None window_td utcnow = Ok empty_frame
  /\ (forall df, empty df = true ->
        _fresh_filter (Some df) window_td utcnow = Ok empty_frame)
  /\ (forall df, empty df = false -> "date" ∉ columns df ->
        _fresh_filter (Some df) window_td utcnow = Raise (KeyError "date"))
  /\ (forall df out, _fresh_filter (Some df) window_td utcnow = Ok out ->
        ("date_parsed" ∉ columns out)
        /\ (forall r, r ∈ rows out -> r !! "date_parsed" = None)
        /\ (List.length (rows out) <= List.length (rows df))%nat
        /\ (empty df = false ->
            forall c, c ∈ columns df -> c <> "date_parsed" -> c ∈ columns out)).
Proof.
  split; [done|]. split; [|split].
  - intros df He. unfold Run._fresh_filter. by rewrite He.
  - intros df He Hd. unfold Run._fresh_filter.
    by rewrite He, bool_decide_eq_false_2.
  - intros df out Hout.
    destruct (fresh_filter_cases df window_td utcnow)
      as [[He H]|[(He & Hd & H)|(He & Hd & H)]]; rewrite H in Hout.
    + injection Hout as <-. split; [by apply (bool_decide_unpack _)|].
      split; [intros r Hr; inversion Hr|]. split; [simpl; lia|]. congruence.
    + discriminate.
    + injection Hout as <-. cbn [columns rows]. split; [|split; [|split]].
      * intros [_ Hc]%DedupSpec.elem_of_List_filter.
        by rewrite bool_decide_eq_true_2 in Hc.
      * intros r [r' [-> _]]%list_elem_of_fmap. apply lookup_delete_eq.
      * rewrite length_fmap. apply sublist_length, List_filter_sublist_self.
      * intros _ c Hc Hne. apply DedupSpec.elem_of_List_filter. split; [done|].
        by rewrite bool_decide_eq_false_2.
Qed.

(** X20. For any window and any reading of the clock, a record of a frame
    with a [date] column is returned exactly when its date reads as an
    instant not before the clock minus the window; there is no upper end:
    a record dated after the clock is always returned. *)
Theorem fresh_filter_any_window df (r : Row) window_td utcnow :
  "date" ∈ columns df -> r ∈ rows df ->
  exists out, _fresh_filter (Some df) window_td utcnow = Ok out
    /\ (delete "date_parsed" r ∈ rows out <->
        exists t, parsed_date r = Some t /\ utcnow - window_td <= t)
    /\ (forall t, parsed_date r = Some t -> utcnow <= t -> 0 <= window_td ->
        delete "date_parsed" r ∈ rows out).
Proof.
  intros Hd Hr.
  destruct (WindowSpec.fresh_filter_in parse_utc df window_td utcnow r Hd Hr)
    as [out [Hout Hiff]].
  exists out. split; [done|].
  assert (Hw : delete "date_parsed" r ∈ rows out <->
               exists t, parsed_date r = Some t /\ utcnow - window_td <= t).
  { rewrite Hiff. unfold Run.in_window. destruct (parsed_date r) as [t|].
    - rewrite bool_decide_eq_true. split; [by exists t | by intros [t' [[= ->] H]]].
    - split; [done | by intros [t [? _]]]. }
  split; [exact Hw|]. intros t Ht Hnow Hpos. apply Hw. exists t. split; [done | lia].
Qed.

(** X21. Windows nest: when the cutoff of one call is not after the cutoff
    of another, everything the second returns for a frame is returned by
    the first, in the same order; so at one reading of the clock the
    records of the two-day window are records of the seven-day window. *)
Theorem fresh_filter_windows_nest df w1 w2 now1 now2 out1 out2 :
  now2 - w2 <= now1 - w1 ->
  _fresh_filter df w1 now1 = Ok out1 ->
  _fresh_filter df w2 now2 = Ok out2 ->
  rows out1 `sublist_of` rows out2.
Proof.
  intros Hle H1 H2. destruct df as [df|]; [|by injection H1 as <-; injection H2 as <-].
  destruct (fresh_filter_cases df w1 now1) as [[He E1]|[(He & Hd & E1)|(He & Hd & E1)]];
    rewrite E1 in H1; [| discriminate |].
  - unfold Run._fresh_filter in H2. rewrite He in H2.
    injection H1 as <-. by injection H2 as <-.
  - rewrite (WindowSpec.fresh_filter_frame parse_utc df w2 now2 He Hd) in H2.
    injection H1 as <-. injection H2 as <-. cbn [rows].
    apply FrameProps.sublist_fmap, FrameProps.List_filter_sublist.
    intros r. unfold Run.in_window. destruct (parsed_date r) as [t|]; [|done].
    rewrite !bool_decide_eq_true. lia.
Qed.

End Window.

Lemma fresh_filter_any_window_witness :
  exists out,
    Run._fresh_filter Sample.no_text_dates
      (Some (Sample.frame [Sample.next_week])) DAILY_WINDOW Sample.T = Ok out
    /\ Sample.next_week ∈ rows out.
Proof.
  destruct (fresh_filter_any_window Sample.no_text_dates
              (Sample.frame [Sample.next_week]) Sample.next_week
              DAILY_WINDOW Sample.T) as [out [Hout [_ Hfuture]]].
  - vm_compute. repeat constructor.
  - apply list_elem_of_singleton. reflexivity.
  - exists out. split; [exact Hout|].
    apply (Hfuture (Sample.T + days 7) eq_refl); vm_compute; discriminate.
Defined.

Lemma fresh_filter_windows_nest_witness :
  exists daily weekly,
    Run._fresh_filter Sample.no_text_dates
      (Some (Sample.frame [Sample.at_47h; Sample.at_49h])) DAILY_WINDOW Sample.T
    = Ok daily
    /\ Run._fresh_filter Sample.no_text_dates
         (Some (Sample.frame [Sample.at_47h; Sample.at_49h])) WEEKLY_WINDOW Sample.T
       = Ok weekly
    /\ rows daily `sublist_of` rows weekly.
Proof.
  eexists. eexists. split; [reflexivity|]. split; [reflexivity|].
  apply (fresh_filter_windows_nest Sample.no_text_dates
           (Some (Sample.frame [Sample.at_47h; Sample.at_49h]))
           DAILY_WINDOW WEEKLY_WINDOW Sample.T Sample.T).
  - vm_compute. discriminate.
  - reflexivity.
  - reflexivity.
Defined.

End WindowProps.

(* ===================================================================== *)
(** * Further properties of the dedup merger *)
(* ===================================================================== *)

Module MergeProps.
Import Run.

Section KeepFirst.
Variable subset : list string.

Abbreviation key := (row_key subset).

Lemma keep_first_sublist seen rs : keep_first subset seen rs `sublist_of` rs.
Proof.
  revert seen. induction rs as [|r rs IH]; intros seen; simpl; [constructor|].
  case_bool_decide; by constructor.
Qed.

(** Only the keys that [seen] holds matter, not how it lists them. *)
Lemma keep_first_seen seen seen' rs :
  (forall k, k ∈ seen <-> k ∈ seen') ->
  keep_first subset seen rs = keep_first subset seen' rs.
Proof.
  revert seen seen'. induction rs as [|r rs IH]; intros seen seen' Heq; simpl; [done|].
  rewrite (bool_decide_ext (key r ∈ seen) (key r ∈ seen')) by apply Heq.
  case_bool_decide; [by apply IH|]. f_equal. apply IH.
  intros k. rewrite !elem_of_cons, Heq. done.
Qed.

Lemma keep_first_app seen l1 l2 :
  keep_first subset seen (l1 ++ l2)
  = (keep_first subset seen l1
     ++ keep_first subset ((key <$> l1) ++ seen) l2)%list.
Proof.
  revert seen. induction l1 as [|r l1 IH]; intros seen; simpl; [done|].
  case_bool_decide as Hin.
  - rewrite IH. f_equal. apply keep_first_seen.
    intros k. rewrite !elem_of_cons, !elem_of_app. split; [tauto|].
    intros [->|H]; tauto.
  - simpl. rewrite IH. do 2 f_equal. apply keep_first_seen.
    intros k. rewrite !elem_of_cons, !elem_of_app, elem_of_cons. tauto.
Qed.

Lemma keep_first_id seen rs :
  NoDup (key <$> rs) -> (forall r, r ∈ rs -> key r ∉ seen) ->
  keep_first subset seen rs = rs.
Proof.
  revert seen. induction rs as [|r rs IH]; intros seen Hnd Hseen; simpl; [done|].
  rewrite fmap_cons in Hnd. apply NoDup_cons in Hnd as [Hr Hnd].
  rewrite bool_decide_eq_false_2 by (apply Hseen; by left).
  f_equal. apply IH; [done|].
  intros r' Hr' [Heq|Hin]%elem_of_cons.
  - apply Hr. rewrite <- Heq. by apply list_elem_of_fmap_2.
  - by apply (Hseen r'); [right|].
Qed.

Lemma keep_first_all_seen seen rs :
  (forall r, r ∈ rs -> key r ∈ seen) -> keep_first subset seen rs = [].
Proof.
  induction rs as [|r rs IH]; intros Hseen; simpl; [done|].
  rewrite bool_decide_eq_true_2 by (apply Hseen; by left).
  apply IH. intros r' Hr'. apply Hseen. by right.
Qed.
End KeepFirst.

Lemma keyed_concat old new : keyed old \/ keyed new -> keyed (concat old new).
Proof.
  unfold keyed. rewrite !DedupSpec.elem_of_concat_columns. tauto.
Qed.

(** X22. With a history that has rows, the merge holds every (title, link)
    pair of the history and of the new records, each once, and no other:
    nothing is lost and nothing is doubled.  Its rows are rows of the
    history and of the new records, in that order. *)
Theorem dedupe_pairs_once df_new df_old :
  empty df_old = false -> keyed df_old \/ keyed df_new ->
  exists out, _dedupe df_new (Some df_old) = Ok out
    /\ NoDup (title_link <$> rows out)
    /\ (forall k, k ∈ title_link <$> rows out <->
                  k ∈ title_link <$> rows df_old \/ k ∈ title_link <$> rows df_new)
    /\ rows out `sublist_of` (rows df_old ++ rows df_new)%list.
Proof.
  intros He Hk. eexists. split; [by apply DedupSpec.dedupe_history|].
  cbn [rows]. split; [apply DedupSpec.keep_first_NoDup|]. split.
  - intros k. unfold title_link. rewrite DedupSpec.keep_first_keys, fmap_app, elem_of_app.
    pose proof (not_elem_of_nil k). tauto.
  - apply keep_first_sublist.
Qed.

Lemma dedupe_pairs_once_witness :
  exists out,
    _dedupe (Sample.frame [Sample.N; Sample.other])
            (Some (Sample.frame [Sample.H0; Sample.H])) = Ok out
    /\ NoDup (title_link <$> rows out)
    /\ (forall k, k ∈ title_link <$> rows out <->
                  k ∈ title_link <$> rows (Sample.frame [Sample.H0; Sample.H])
                  \/ k ∈ title_link <$> rows (Sample.frame [Sample.N; Sample.other]))
    /\ rows out `sublist_of`
         (rows (Sample.frame [Sample.H0; Sample.H])
          ++ rows (Sample.frame [Sample.N; Sample.other]))%list.
Proof.
  apply (dedupe_pairs_once (Sample.frame [Sample.N; Sample.other])
           (Sample.frame [Sample.H0; Sample.H])).
  - reflexivity.
  - left. split; vm_compute; repeat constructor.
Defined.

(** X23. A history without doubled pairs is never touched: the merge
    starts with the rows of the history, all of them and in their order,
    and goes on with new records only, none of which carries a pair of the
    history. *)
Theorem dedupe_keeps_history df_new df_old :
  empty df_old = false -> keyed df_old \/ keyed df_new ->
  NoDup (title_link <$> rows df_old) ->
  exists out tail, _dedupe df_new (Some df_old) = Ok out
    /\ rows out = (rows df_old ++ tail)%list
    /\ tail `sublist_of` rows df_new
    /\ (forall r, r ∈ tail -> title_link r ∉ title_link <$> rows df_old).
Proof.
  intros He Hk Hnd.
  exists (mkDataFrame (columns (concat df_old df_new))
            (keep_first ["title"; "link"] [] (rows df_old ++ rows df_new))).
  exists (keep_first ["title"; "link"] ((title_link <$> rows df_old) ++ [])
            (rows df_new)).
  split; [by apply DedupSpec.dedupe_history|]. cbn [rows]. split; [|split].
  - rewrite keep_first_app. f_equal. apply keep_first_id; [done|].
    intros r _. apply not_elem_of_nil.
  - apply keep_first_sublist.
  - intros r [_ Hr]%DedupSpec.keep_first_elem. by rewrite app_nil_r in Hr.
Qed.

Lemma dedupe_keeps_history_witness :
  exists out tail,
    _dedupe (Sample.frame [Sample.N; Sample.other])
            (Some (Sample.frame [Sample.H])) = Ok out
    /\ rows out = (rows (Sample.frame [Sample.H]) ++ tail)%list
    /\ tail `sublist_of` rows (Sample.frame [Sample.N; Sample.other])
    /\ (forall r, r ∈ tail ->
          title_link r ∉ title_link <$> rows (Sample.frame [Sample.H])).
Proof.
  apply (dedupe_keeps_history (Sample.frame [Sample.N; Sample.other])
           (Sample.frame [Sample.H])).
  - reflexivity.
  - left. split; vm_compute; repeat constructor.
  - vm_compute. repeat constructor. intros Hin. inversion Hin.
Defined.

Lemma concat_columns_again a b rs :
  columns (concat (mkDataFrame (columns (concat a b)) rs) b)
  = columns (concat a b).
Proof.
  set (ab := concat a b). unfold concat at 1. cbn [columns].
  rewrite FrameProps.List_filter_nil; [apply app_nil_r|].
  intros c Hc. apply negb_false_iff, bool_decide_eq_true.
  apply DedupSpec.elem_of_concat_columns. by right.
Qed.

(** Merging the same new records into the merge changes nothing. *)
Lemma dedupe_again df_new df_old out :
  empty df_old = false -> keyed df_old \/ keyed df_new ->
  _dedupe df_new (Some df_old) = Ok out ->
  _dedupe df_new (Some out) = Ok out.
Proof.
  intros He Hk Hout.
  rewrite DedupSpec.dedupe_history in Hout by done. injection Hout as <-.
  apply DedupSpec.empty_false in He as [Hr Hc].
  rewrite DedupSpec.dedupe_history; cycle 1.
  { apply DedupSpec.not_empty; cbn [rows columns].
    - destruct (rows df_old) as [|r rs]; [done|]. simpl. discriminate.
    - unfold concat. cbn [columns]. by destruct (columns df_old). }
  { left. unfold keyed. cbn [columns]. by apply keyed_concat. }
  f_equal. f_equal; [apply (concat_columns_again df_old df_new)|]. cbn [rows].
  set (K := keep_first ["title"; "link"] [] (rows df_old ++ rows df_new)).
  rewrite keep_first_app, (keep_first_all_seen _ _ (rows df_new)), app_nil_r.
  - apply keep_first_id; [apply DedupSpec.keep_first_NoDup|].
    intros r _. apply not_elem_of_nil.
  - intros r Hr'. rewrite app_nil_r. apply DedupSpec.keep_first_keys.
    split; [|apply not_elem_of_nil].
    apply list_elem_of_fmap_2, elem_of_app. by right.
Qed.

(** X24. Merging is idempotent: once new records are merged into a
    history that has rows, merging the same records into the result
    returns the result, rows and columns. *)
Theorem dedupe_idempotent df_new df_old out :
  empty df_old = false -> keyed df_old \/ keyed df_new ->
  _dedupe df_new (Some df_old) = Ok out ->
  _dedupe df_new (Some out) = Ok out.
Proof. apply dedupe_again. Qed.

Lemma dedupe_idempotent_witness :
  _dedupe (Sample.frame [Sample.N; Sample.other])
          (Some (Sample.frame [Sample.H; Sample.other]))
  = Ok (Sample.frame [Sample.H; Sample.other]).
Proof.
  apply (dedupe_idempotent (Sample.frame [Sample.N; Sample.other])
           (Sample.frame [Sample.H])).
  - reflexivity.
  - left. split; vm_compute; repeat constructor.
  - vm_compute. reflexivity.
Defined.

(** X25. When the history has rows the merger needs the two columns of the
    pair in one of the two frames: if neither frame has a [title] column it
    raises [KeyError] on [title], and if one has it but neither has a
    [link] column it raises [KeyError] on [link]. *)
Theorem dedupe_missing_columns df_new df_old :
  empty df_old = false ->
  (("title" ∉ columns df_old) -> ("title" ∉ columns df_new) ->
   _dedupe df_new (Some df_old) = Raise (KeyError "title"))
  /\ ("title" ∈ columns df_old \/ "title" ∈ columns df_new ->
      ("link" ∉ columns df_old) -> ("link" ∉ columns df_new) ->
      _dedupe df_new (Some df_old) = Raise (KeyError "link")).
Proof.
  intros He. unfold _dedupe. rewrite He.
  apply DedupSpec.empty_false in He as [Hr Hc].
  assert (Hne : empty (concat df_old df_new) = false).
  { apply DedupSpec.not_empty; cbn [rows columns concat].
    - by destruct (rows df_old).
    - by destruct (columns df_old). }
  unfold drop_duplicates. rewrite Hne. cbn [List.filter]. split.
  - intros H1 H2. rewrite (bool_decide_eq_false_2 ("title" ∈ _)); [done|].
    rewrite DedupSpec.elem_of_concat_columns. tauto.
  - intros Ht H1 H2. rewrite (bool_decide_eq_true_2 ("title" ∈ _))
      by (by apply DedupSpec.elem_of_concat_columns).
    cbn [negb]. rewrite (bool_decide_eq_false_2 ("link" ∈ _)); [done|].
    rewrite DedupSpec.elem_of_concat_columns. tauto.
Qed.

Lemma dedupe_missing_columns_witness :
  _dedupe (mkDataFrame ["date"] [Sample.N])
          (Some (mkDataFrame ["date"; "link"] [Sample.H]))
  = Raise (KeyError "title")
  /\ _dedupe (mkDataFrame ["date"] [Sample.N])
             (Some (mkDataFrame ["date"; "title"] [Sample.H]))
     = Raise (KeyError "link").
Proof.
  split.
  - apply (dedupe_missing_columns (mkDataFrame ["date"] [Sample.N])
             (mkDataFrame ["date"; "link"] [Sample.H])); [reflexivity|..];
      by apply (bool_decide_unpack _).
  - apply (dedupe_missing_columns (mkDataFrame ["date"] [Sample.N])
             (mkDataFrame ["date"; "title"] [Sample.H]));
      [reflexivity | left | ..]; by apply (bool_decide_unpack _).
Defined.

End MergeProps.

(* ===================================================================== *)
(** * Further properties of a run of run.py *)
(* ===================================================================== *)

Module RunProps.
Import Run.

Lemma load_daily_saved daily weekly :
  _load_sheet (_save_excel (Some daily) (Some weekly)) DAILY_SHEET = Some daily.
Proof.
  unfold _save_excel, _load_sheet. rewrite lookup_insert_ne by done.
  apply lookup_insert_eq.
Qed.

Lemma load_weekly_saved daily weekly :
  _load_sheet (_save_excel (Some daily) (Some weekly)) WEEKLY_SHEET = Some weekly.
Proof. unfold _save_excel, _load_sheet. apply lookup_insert_eq. Qed.

Lemma keyed_canonical df : columns df = COLS -> keyed df.
Proof. intros Hc. unfold keyed. rewrite Hc. split; repeat constructor. Qed.

(** What the merge keeps of a history that has rows. *)
Lemma dedupe_history_kept df_new df_old out :
  empty df_old = false -> keyed df_new ->
  _dedupe df_new (Some df_old) = Ok out ->
  (forall r, r ∈ rows df_old ->
     exists r', r' ∈ rows out /\ title_link r' = title_link r)
  /\ (NoDup (title_link <$> rows df_old) -> rows df_old `prefix_of` rows out).
Proof.
  intros He Hk Hout.
  rewrite DedupSpec.dedupe_history in Hout by auto. injection Hout as <-.
  cbn [rows]. split.
  - intros r Hr.
    assert (Hin : title_link r ∈ title_link <$>
              keep_first ["title"; "link"] [] (rows df_old ++ rows df_new)).
    { unfold title_link. apply DedupSpec.keep_first_keys.
      split; [|apply not_elem_of_nil].
      apply list_elem_of_fmap_2, elem_of_app. by left. }
    apply list_elem_of_fmap in Hin as [r' [Heq Hr']]. by exists r'.
  - intros Hnd. rewrite MergeProps.keep_first_app.
    rewrite (MergeProps.keep_first_id _ [] (rows df_old)); [by eexists|done|].
    intros r _. apply not_elem_of_nil.
Qed.

Section Main.
Variable parse_utc : string -> option Z.

Abbreviation main := (main parse_utc).
Abbreviation __main__ := (__main__ parse_utc).

Lemma main_raises env path s :
  fault env = Some s ->
  __main__ env path = _save_excel (Some empty_frame) (Some empty_frame).
Proof.
  intros Hf. unfold Run.__main__.
  by destruct (RunSpec.main_fault parse_utc env path s Hf) as [e ->].
Qed.

(** X26. A run that raises leaves no history: whatever the workbook held,
    the file it leaves has the two partitions with the six columns and no
    row, so the records of every earlier run are gone. *)
Theorem failed_run_empties_workbook env path s sheet :
  fault env = Some s -> sheet ∈ [DAILY_SHEET; WEEKLY_SHEET] ->
  _load_sheet (__main__ env path) sheet = Some empty_frame.
Proof.
  intros Hf Hs. rewrite (main_raises env path s Hf).
  apply elem_of_cons in Hs as [->|Hs]; [apply load_daily_saved|].
  apply list_elem_of_singleton in Hs as ->. apply load_weekly_saved.
Qed.

(** X27. A run that returns never drops a record of a partition that has
    rows: every (title, link) pair of the partition is still in it after
    the run, whatever the date of the record and whatever was crawled; the
    window is applied to the crawled records only.  When no two rows of
    the partition share a pair, the partition after the run starts with
    the rows it had, unchanged and in their order. *)
Theorem run_keeps_history env path sheet old :
  fault env = None -> sheet ∈ [DAILY_SHEET; WEEKLY_SHEET] ->
  _load_sheet path sheet = Some old -> empty old = false ->
  exists out, _load_sheet (__main__ env path) sheet = Some out
    /\ (forall r, r ∈ rows old ->
          exists r', r' ∈ rows out /\ title_link r' = title_link r)
    /\ (NoDup (title_link <$> rows old) -> rows old `prefix_of` rows out).
Proof.
  intros Hf Hs Hl He.
  destruct (RunSpec.main_ok parse_utc env path Hf)
    as (daily_df & weekly_df & daily_all & weekly_all
        & _ & _ & Hdc & Hwc & Hda & Hwa & Hmain).
  unfold Run.__main__. rewrite Hmain.
  apply elem_of_cons in Hs as [->|Hs];
    [|apply list_elem_of_singleton in Hs as ->].
  - exists daily_all. split; [apply load_daily_saved|].
    rewrite Hl in Hda.
    exact (dedupe_history_kept daily_df old daily_all He (keyed_canonical _ Hdc) Hda).
  - exists weekly_all. split; [apply load_weekly_saved|].
    rewrite Hl in Hwa.
    exact (dedupe_history_kept weekly_df old weekly_all He (keyed_canonical _ Hwc) Hwa).
Qed.


End Main.

Lemma failed_run_empties_workbook_witness :
  _load_sheet Sample.history DAILY_SHEET = Some (Sample.frame [Sample.H])
  /\ _load_sheet (__main__ Sample.no_text_dates Sample.env_fault Sample.history)
       DAILY_SHEET
     = Some empty_frame.
Proof.
  split; [reflexivity|].
  apply (failed_run_empties_workbook Sample.no_text_dates Sample.env_fault
           Sample.history PERSIST DAILY_SHEET).
  - reflexivity.
  - by apply (bool_decide_unpack _).
Defined.

Lemma run_keeps_history_witness :
  exists out,
    _load_sheet (__main__ Sample.no_text_dates Sample.env_partial Sample.history)
      DAILY_SHEET = Some out
    /\ (forall r, r ∈ rows (Sample.frame [Sample.H]) ->
          exists r', r' ∈ rows out /\ title_link r' = title_link r)
    /\ (NoDup (title_link <$> rows (Sample.frame [Sample.H])) ->
        rows (Sample.frame [Sample.H]) `prefix_of` rows out).
Proof.
  apply (run_keeps_history Sample.no_text_dates Sample.env_partial
           Sample.history DAILY_SHEET (Sample.frame [Sample.H])).
  - reflexivity.
  - by apply (bool_decide_unpack _).
  - reflexivity.
  - reflexivity.
Defined.


End RunProps.
